(** * The RTP-to-WebRTC bridge of [index.js]

    A shallow embedding of the signalling and ingestion server.

    The program is single-threaded JavaScript: every handler runs until
    its next [await] on an external operation (the media engine, a timer,
    a socket bind) and is resumed later, when that operation settles.  A
    handler is therefore modelled as a resumption over the shared program
    state: [Step] is either finished, failed (a rejected promise),
    suspended on a request with a continuation that receives the reply
    and the state as it is when the handler is resumed, or left waiting
    on a promise that is never settled.

    JavaScript objects shared by reference (rooms, producers, consumers)
    live in heaps indexed by a reference; [Map]s are insertion-ordered
    association lists keyed by JavaScript values.

    An [await] on the promise of a nested [async] call that has already
    settled only defers to the microtask queue; the model runs such a
    continuation in the same turn.  [console.log] calls are not
    modelled. *)

From Stdlib Require Import ZArith Strings.Byte Lia.
From stdpp Require Import base decidable option list strings pretty.

Open Scope string_scope.
Open Scope list_scope.
Open Scope Z_scope.

(** ** JavaScript values *)

(** Primitives are compared by value, objects and arrays by reference. *)
Inductive JsVal : Type :=
| VUndefined
| VNull
| VBool (b : bool)
| VNum (n : Z)
| VStr (s : string)
| VObj (ref : nat).

#[global] Instance JsVal_eq_dec : EqDecision JsVal.
Proof. solve_decision. Defined.

(** [ToBoolean]. *)
Definition truthy (v : JsVal) : bool :=
  match v with
  | VUndefined | VNull => false
  | VBool b => b
  | VNum n => negb (n =? 0)
  | VStr s => negb (String.eqb s EmptyString)
  | VObj _ => true
  end.

(** [a || b]. *)
Definition js_or (a b : JsVal) : JsVal := if truthy a then a else b.

(** [v === 'lit']. *)
Definition is_str (v : JsVal) (lit : string) : bool :=
  match v with
  | VStr s => String.eqb s lit
  | _ => false
  end.

(** ** [Map] *)

Module JsMap.
Section JsMap.
Context {V : Type}.

Definition t := list (JsVal * V).

Fixpoint get (k : JsVal) (m : t) : option V :=
  match m with
  | [] => None
  | (k', v) :: m' => if decide (k = k') then Some v else get k m'
  end.

Definition has (k : JsVal) (m : t) : bool :=
  match get k m with Some _ => true | None => false end.

(** [set] on a present key replaces the value in place; a new key goes
    to the end of the iteration order. *)
Fixpoint set (k : JsVal) (v : V) (m : t) : t :=
  match m with
  | [] => [(k, v)]
  | (k', v') :: m' =>
      if decide (k = k') then (k, v) :: m' else (k', v') :: set k v m'
  end.

Definition values (m : t) : list V := map snd m.
End JsMap.
Arguments t : clear implicits.
End JsMap.

(** ** Data model *)

(** Objects handed out by the media engine.  Only the fields the program
    reads are kept. *)
Record Router := { r_id : string; rtpCapabilities : JsVal }.

Record PlainTransport := {
  pt_id : string;
  tuple_localPort : Z;
  rtcpTuple_localPort : Z
}.

Record WebRtcTransport := {
  t_id : string;
  iceParameters : JsVal;
  iceCandidates : JsVal;
  dtlsParameters : JsVal
}.

Record Producer := {
  p_id : string;
  p_kind : string;
  p_paused : bool;
  p_closed : bool
}.

Record Consumer := {
  c_id : string;
  c_kind : string;
  c_rtpParameters : JsVal;
  c_paused : bool;
  (** [consumer._transportId], absent until line 100 assigns it. *)
  c_transportId : option string
}.

(** A room as built on line 28; producers and consumers are references
    into the object heaps. *)
Record Room := {
  router : Router;
  transports : JsMap.t WebRtcTransport;
  producers : JsMap.t nat;
  consumers : JsMap.t nat
}.

(** The argument of [createRouter] and of [produce]. *)
Record MediaCodec := {
  mc_kind : string;
  mc_mimeType : string;
  mc_clockRate : Z;
  mc_parameters : list (string * JsVal)
}.

Record CodecParams := {
  cp_mimeType : string;
  cp_payloadType : Z;
  cp_clockRate : Z;
  cp_parameters : option (list (string * JsVal))
}.

Record RtpParameters := {
  codecs : list CodecParams;
  headerExtensions : list JsVal;
  encodings : list JsVal;   (* the [ssrc] of each encoding *)
  rtcp_cname : string
}.

(** The [options] argument of [createRtpReceiver]; a missing property
    takes its default. *)
Record Options := {
  o_listenPort : option Z;
  o_kind : option string;
  o_codec : option string;
  o_payloadType : option Z;
  o_clockRate : option Z
}.

Definition no_options : Options := Build_Options None None None None None.

Definition PORT : Z := 3000.
Definition RTP_PORT : Z := 5004.

(** The constants a receiver's handlers close over, and its [let]
    variables [producer], [ssrc] and [packetCount].  The two flags record
    whether the operating system has the listening sockets bound. *)
Record Receiver := {
  rv_room : nat;
  rv_transport : PlainTransport;
  rtpPort : Z;
  rtcpPort : Z;
  listenPort : Z;
  kind : string;
  codec : string;
  payloadType : Z;
  clockRate : Z;
  producer : option nat;
  ssrc : JsVal;
  packetCount : Z;
  rtpSocket_bound : bool;
  rtcpSocket_bound : bool
}.

(** Messages of the signalling protocol, after [JSON.parse]: the
    properties the handler reads (an absent one is [undefined]). *)
Record ClientMsg := {
  action : JsVal;
  roomId : JsVal;
  msg_dtlsParameters : JsVal;
  msg_rtpCapabilities : JsVal
}.

(** The objects the handler serialises with [JSON.stringify]. *)
Inductive ServerMsg : Type :=
| TransportCreated (transportId : string) (ice cands dtls : JsVal)
| RtpCapabilities (caps : JsVal)
| TransportConnected
| ConsumerCreated (id producerId kind : string) (rtpParameters : JsVal)
| Error (message : string)
| ConsumerResumed.

Definition action_of (m : ServerMsg) : string :=
  match m with
  | TransportCreated _ _ _ _ => "transport-created"
  | RtpCapabilities _ => "rtp-capabilities"
  | TransportConnected => "transport-connected"
  | ConsumerCreated _ _ _ _ => "consumer-created"
  | Error _ => "error"
  | ConsumerResumed => "consumer-resumed"
  end.

Inductive Socket : Type :=
| rtpForward (receiver : nat)
| rtcpForward (receiver : nat).

(** What the program puts on the wire. *)
Inductive Output : Type :=
| WsSend (session : nat) (m : ServerMsg)
| UdpSend (sock : Socket) (packet : list byte) (port : Z) (host : string).

(** The module-level variables, the heaps, the per-connection variable
    [transport] of every session, the receivers, and the log of
    everything sent so far. *)
Record World := {
  workers : list nat;
  rooms : JsMap.t nat;
  room_heap : list Room;
  producer_heap : list Producer;
  consumer_heap : list Consumer;
  sessions : list (option WebRtcTransport);
  receivers : list Receiver;
  outbox : list Output
}.

Definition empty_world : World :=
  Build_World [] [] [] [] [] [] [] [].

(** ** External operations *)

Inductive Request : Type :=
| ReqCreateWorker
| ReqCreateRouter (worker : nat) (mediaCodecs : list MediaCodec)
| ReqCreatePlainTransport (router : string)
| ReqCreateWebRtcTransport (router : string)
| ReqConnect (transport : string) (dtls : JsVal)
| ReqProduce (transport : string) (kind : string) (params : RtpParameters)
| ReqProducerResume (producer : string)
| ReqConsume (transport : string) (producerId : string) (caps : JsVal)
| ReqConsumerResume (consumer : string)
| ReqSleep (ms : Z)
| ReqBind (rtp rtcp : Z).

(** [RspBinds] carries what the runtime makes of the two [bind] calls of
    lines 63-66: [None] for a socket that is listening, whose callback
    has been called, and the error for a socket that could not be bound.
    Such an error is emitted on the socket and is never passed to the
    callback. *)
Inductive Response : Type :=
| RspWorker (w : nat)
| RspRouter (r : Router)
| RspPlainTransport (t : PlainTransport)
| RspWebRtcTransport (t : WebRtcTransport)
| RspProducer (p : Producer)
| RspConsumer (c : Consumer)
| RspOk
| RspBinds (rtp_err rtcp_err : option string)
| RspError (e : string).

(** ** Resumptions *)

(** [Hang w] is a computation that awaits a promise which nothing will
    settle: it neither returns nor throws, and it is never resumed. *)
Inductive Step (A : Type) : Type :=
| Done (a : A) (w : World)
| Fail (e : string) (w : World)
| Susp (rq : Request) (w : World) (k : Response -> World -> Step A)
| Hang (w : World).
Arguments Done {A} a w.
Arguments Fail {A} e w.
Arguments Susp {A} rq w k.
Arguments Hang {A} w.

Definition M (A : Type) : Type := World -> Step A.

Definition ret {A} (a : A) : M A := fun w => Done a w.
Definition throw {A} (e : string) : M A := fun w => Fail e w.
Definition never {A} : M A := fun w => Hang w.

Fixpoint bindS {A B} (s : Step A) (f : A -> M B) : Step B :=
  match s with
  | Done a w => f a w
  | Fail e w => Fail e w
  | Susp rq w k => Susp rq w (fun r w' => bindS (k r w') f)
  | Hang w => Hang w
  end.

Definition bind {A B} (m : M A) (f : A -> M B) : M B :=
  fun w => bindS (m w) f.

Notation "x <- m ;; k" := (bind m (fun x => k))
  (at level 100, m at next level, right associativity).
Notation "m ;;; k" := (bind m (fun _ => k))
  (at level 100, right associativity).

Definition await (rq : Request) : M Response :=
  fun w => Susp rq w (fun r w' => Done r w').

Definition gets {A} (f : World -> A) : M A := fun w => Done (f w) w.
Definition modify (f : World -> World) : M unit := fun w => Done tt (f w).

Definition when (b : bool) (m : M unit) : M unit := if b then m else ret tt.

(** ** State access *)

Definition with_workers (f : list nat -> list nat) (w : World) : World :=
  Build_World (f (workers w)) (rooms w) (room_heap w) (producer_heap w)
    (consumer_heap w) (sessions w) (receivers w) (outbox w).
Definition with_rooms (f : JsMap.t nat -> JsMap.t nat) (w : World) : World :=
  Build_World (workers w) (f (rooms w)) (room_heap w) (producer_heap w)
    (consumer_heap w) (sessions w) (receivers w) (outbox w).
Definition with_room_heap (f : list Room -> list Room) (w : World) : World :=
  Build_World (workers w) (rooms w) (f (room_heap w)) (producer_heap w)
    (consumer_heap w) (sessions w) (receivers w) (outbox w).
Definition with_producer_heap (f : list Producer -> list Producer)
    (w : World) : World :=
  Build_World (workers w) (rooms w) (room_heap w) (f (producer_heap w))
    (consumer_heap w) (sessions w) (receivers w) (outbox w).
Definition with_consumer_heap (f : list Consumer -> list Consumer)
    (w : World) : World :=
  Build_World (workers w) (rooms w) (room_heap w) (producer_heap w)
    (f (consumer_heap w)) (sessions w) (receivers w) (outbox w).
Definition with_sessions
    (f : list (option WebRtcTransport) -> list (option WebRtcTransport))
    (w : World) : World :=
  Build_World (workers w) (rooms w) (room_heap w) (producer_heap w)
    (consumer_heap w) (f (sessions w)) (receivers w) (outbox w).
Definition with_receivers (f : list Receiver -> list Receiver)
    (w : World) : World :=
  Build_World (workers w) (rooms w) (room_heap w) (producer_heap w)
    (consumer_heap w) (sessions w) (f (receivers w)) (outbox w).
Definition with_outbox (f : list Output -> list Output) (w : World) : World :=
  Build_World (workers w) (rooms w) (room_heap w) (producer_heap w)
    (consumer_heap w) (sessions w) (receivers w) (f (outbox w)).

Definition with_transports (f : JsMap.t WebRtcTransport -> JsMap.t WebRtcTransport)
    (r : Room) : Room :=
  Build_Room (router r) (f (transports r)) (producers r) (consumers r).
Definition with_producers (f : JsMap.t nat -> JsMap.t nat) (r : Room) : Room :=
  Build_Room (router r) (transports r) (f (producers r)) (consumers r).
Definition with_consumers (f : JsMap.t nat -> JsMap.t nat) (r : Room) : Room :=
  Build_Room (router r) (transports r) (producers r) (f (consumers r)).

Definition set_p_paused (b : bool) (p : Producer) : Producer :=
  Build_Producer (p_id p) (p_kind p) b (p_closed p).
Definition set_c_paused (b : bool) (c : Consumer) : Consumer :=
  Build_Consumer (c_id c) (c_kind c) (c_rtpParameters c) b (c_transportId c).
Definition set_c_transportId (t : string) (c : Consumer) : Consumer :=
  Build_Consumer (c_id c) (c_kind c) (c_rtpParameters c) (c_paused c) (Some t).

Definition set_producer (p : option nat) (r : Receiver) : Receiver :=
  Build_Receiver (rv_room r) (rv_transport r) (rtpPort r) (rtcpPort r)
    (listenPort r) (kind r) (codec r) (payloadType r) (clockRate r)
    p (ssrc r) (packetCount r) (rtpSocket_bound r) (rtcpSocket_bound r).
Definition set_ssrc (v : JsVal) (r : Receiver) : Receiver :=
  Build_Receiver (rv_room r) (rv_transport r) (rtpPort r) (rtcpPort r)
    (listenPort r) (kind r) (codec r) (payloadType r) (clockRate r)
    (producer r) v (packetCount r) (rtpSocket_bound r) (rtcpSocket_bound r).
Definition incr_packetCount (r : Receiver) : Receiver :=
  Build_Receiver (rv_room r) (rv_transport r) (rtpPort r) (rtcpPort r)
    (listenPort r) (kind r) (codec r) (payloadType r) (clockRate r)
    (producer r) (ssrc r) (packetCount r + 1)
    (rtpSocket_bound r) (rtcpSocket_bound r).
Definition set_bound (rtp rtcp : bool) (r : Receiver) : Receiver :=
  Build_Receiver (rv_room r) (rv_transport r) (rtpPort r) (rtcpPort r)
    (listenPort r) (kind r) (codec r) (payloadType r) (clockRate r)
    (producer r) (ssrc r) (packetCount r) rtp rtcp.

(** In-place update of the object behind a reference. *)
Definition upd {A} (i : nat) (f : A -> A) (l : list A) : list A :=
  match l !! i with
  | Some x => <[i := f x]> l
  | None => l
  end.

Definition upd_room (ref : nat) (f : Room -> Room) : M unit :=
  modify (with_room_heap (upd ref f)).
Definition upd_producer (ref : nat) (f : Producer -> Producer) : M unit :=
  modify (with_producer_heap (upd ref f)).
Definition upd_consumer (ref : nat) (f : Consumer -> Consumer) : M unit :=
  modify (with_consumer_heap (upd ref f)).
Definition upd_receiver (rid : nat) (f : Receiver -> Receiver) : M unit :=
  modify (with_receivers (upd rid f)).

(** Reading through a reference; a dangling one is a [TypeError]. *)
Definition deref {A} (heap : World -> list A) (ref : nat) : M A :=
  fun w =>
    match heap w !! ref with
    | Some x => Done x w
    | None => Fail "TypeError: cannot read properties of undefined" w
    end.

Definition room_at := deref room_heap.
Definition producer_at := deref producer_heap.
Definition consumer_at := deref consumer_heap.
Definition receiver_at := deref receivers.

(** The variable [transport] of a connection; [null] until a join has
    completed. *)
Definition session_transport (sid : nat) (w : World) : option WebRtcTransport :=
  match sessions w !! sid with
  | Some t => t
  | None => None
  end.

Definition read_transport (sid : nat) : M WebRtcTransport :=
  fun w =>
    match session_transport sid w with
    | Some t => Done t w
    | None => Fail "TypeError: cannot read properties of null" w
    end.

Definition set_transport (sid : nat) (t : WebRtcTransport) : M unit :=
  modify (with_sessions (fun l => <[sid := Some t]> l)).

Definition ws_send (sid : nat) (m : ServerMsg) : M unit :=
  modify (with_outbox (fun o => o ++ [WsSend sid m])).

Definition udp_send (s : Socket) (packet : list byte) (port : Z)
    (host : string) : M unit :=
  modify (with_outbox (fun o => o ++ [UdpSend s packet port host])).

(** ** The media engine and the runtime, at their interface *)

Definition bad_reply {A} : M A := throw "unexpected reply".

Definition createWorker : M nat :=
  r <- await ReqCreateWorker;;
  match r with
  | RspWorker wk => ret wk
  | RspError e => throw e
  | _ => bad_reply
  end.

Definition createRouter (worker : nat) (mediaCodecs : list MediaCodec)
    : M Router :=
  r <- await (ReqCreateRouter worker mediaCodecs);;
  match r with
  | RspRouter x => ret x
  | RspError e => throw e
  | _ => bad_reply
  end.

Definition createPlainTransport (r : Router) : M PlainTransport :=
  rsp <- await (ReqCreatePlainTransport (r_id r));;
  match rsp with
  | RspPlainTransport t => ret t
  | RspError e => throw e
  | _ => bad_reply
  end.

Definition createWebRtcTransport (r : Router) : M WebRtcTransport :=
  rsp <- await (ReqCreateWebRtcTransport (r_id r));;
  match rsp with
  | RspWebRtcTransport t => ret t
  | RspError e => throw e
  | _ => bad_reply
  end.

Definition transport_connect (t : WebRtcTransport) (dtls : JsVal) : M unit :=
  rsp <- await (ReqConnect (t_id t) dtls);;
  match rsp with
  | RspOk => ret tt
  | RspError e => throw e
  | _ => bad_reply
  end.

(** [produce] and [consume] resolve to a new object; the program gets a
    reference to it. *)
Definition transport_produce (t : PlainTransport) (kind : string)
    (params : RtpParameters) : M nat :=
  rsp <- await (ReqProduce (pt_id t) kind params);;
  match rsp with
  | RspProducer p =>
      ref <- gets (fun w => length (producer_heap w));;
      modify (with_producer_heap (fun h => h ++ [p]));;;
      ret ref
  | RspError e => throw e
  | _ => bad_reply
  end.

Definition transport_consume (t : WebRtcTransport) (producerId : string)
    (caps : JsVal) : M nat :=
  rsp <- await (ReqConsume (t_id t) producerId caps);;
  match rsp with
  | RspConsumer c =>
      ref <- gets (fun w => length (consumer_heap w));;
      modify (with_consumer_heap (fun h => h ++ [c]));;;
      ret ref
  | RspError e => throw e
  | _ => bad_reply
  end.

(** [resume()] clears the object's [paused] flag once the engine has
    acknowledged. *)
Definition producer_resume (ref : nat) : M unit :=
  p <- producer_at ref;;
  rsp <- await (ReqProducerResume (p_id p));;
  match rsp with
  | RspOk => upd_producer ref (set_p_paused false)
  | RspError e => throw e
  | _ => bad_reply
  end.

Definition consumer_resume (ref : nat) : M unit :=
  c <- consumer_at ref;;
  rsp <- await (ReqConsumerResume (c_id c));;
  match rsp with
  | RspOk => upd_consumer ref (set_c_paused false)
  | RspError e => throw e
  | _ => bad_reply
  end.

(** [new Promise(r => setTimeout(r, ms))]: never rejects. *)
Definition sleep (ms : Z) : M unit := await (ReqSleep ms);;; ret tt.

(** [Buffer.prototype.readUInt32BE]. *)
Definition readUInt32BE (offset : nat) (buf : list byte) : option Z :=
  match drop offset buf with
  | b0 :: b1 :: b2 :: b3 :: _ =>
      Some (Z.of_N (Byte.to_N b0) * 2 ^ 24 + Z.of_N (Byte.to_N b1) * 2 ^ 16
            + Z.of_N (Byte.to_N b2) * 2 ^ 8 + Z.of_N (Byte.to_N b3))
  | _ => None
  end.

(** ** The program *)

Definition h264_parameters : list (string * JsVal) :=
  [("packetization-mode", VNum 1); ("profile-level-id", VStr "42e01f")].

Definition mediaCodecs : list MediaCodec :=
  [Build_MediaCodec "video" "video/H264" 90000 h264_parameters].

(** Lines 15-22. *)
Fixpoint initWorkers_loop (numWorkers : nat) : M unit :=
  match numWorkers with
  | O => ret tt
  | S n =>
      worker <- createWorker;;
      modify (with_workers (fun l => l ++ [worker]));;;
      initWorkers_loop n
  end.

Definition initWorkers : M unit := initWorkers_loop 1.

(** Lines 24-31. *)
Definition getOrCreateRoom (roomId : JsVal) : M nat :=
  present <- gets (fun w => JsMap.has roomId (rooms w));;
  (if present then ret tt
   else
     worker <- gets (fun w => workers w !! 0%nat);;
     match worker with
     | None => throw "TypeError: cannot read properties of undefined"
     | Some worker =>
         router <- createRouter worker mediaCodecs;;
         ref <- gets (fun w => length (room_heap w));;
         modify (with_room_heap (fun h => h ++ [Build_Room router [] [] []]));;;
         modify (with_rooms (JsMap.set roomId ref))
     end);;;
  room <- gets (fun w => JsMap.get roomId (rooms w));;
  match room with
  | Some ref => ret ref
  | None => throw "TypeError: cannot read properties of undefined"
  end.

(** Line 50. *)
Definition codecParams (codec : string) (payloadType clockRate : Z)
    : CodecParams :=
  if String.eqb codec "H264"
  then Build_CodecParams "video/H264" payloadType clockRate
         (Some h264_parameters)
  else Build_CodecParams ("video/" +:+ codec) payloadType clockRate None.

(** Lines 45-59: the [message] handler of [rtpSocket].  [c] holds the
    constants of the enclosing call; [producer], [ssrc] and
    [packetCount] are read from and written to the receiver's cell. *)
Definition on_rtp (rid : nat) (c : Receiver) (packet : list byte) : M unit :=
  upd_receiver rid incr_packetCount;;;
  cur <- receiver_at rid;;
  (if negb (truthy (ssrc cur)) && (12 <=? length packet)%nat then
     match readUInt32BE 8 packet with
     | None => throw "RangeError: out of range"
     | Some v =>
         upd_receiver rid (set_ssrc (VNum v));;;
         p <- transport_produce (rv_transport c) (kind c)
                (Build_RtpParameters
                   [codecParams (codec c) (payloadType c) (clockRate c)]
                   [] [VNum v] ("rtp-" +:+ pretty v));;
         upd_receiver rid (set_producer (Some p));;;
         pobj <- producer_at p;;
         upd_room (rv_room c) (with_producers (JsMap.set (VStr (p_id pobj)) p));;;
         cur <- receiver_at rid;;
         upd_room (rv_room c) (with_producers (JsMap.set (ssrc cur) p));;;
         pobj <- producer_at p;;
         when (p_paused pobj) (producer_resume p)
     end
   else ret tt);;;
  cur <- receiver_at rid;;
  match producer cur with
  | Some _ =>
      when (negb (rtpPort c =? 0))
        (udp_send (rtpForward rid) packet (rtpPort c) "127.0.0.1")
  | None => ret tt
  end.

(** Line 61: the [message] handler of [rtcpSocket]. *)
Definition on_rtcp (rid : nat) (c : Receiver) (packet : list byte) : M unit :=
  when (negb (rtcpPort c =? 0))
    (udp_send (rtcpForward rid) packet (rtcpPort c) "127.0.0.1").

(** Lines 33-70.  Each of the two promises of lines 63-66 is settled by
    the callback of its [bind] only, and the callback is called when the
    socket is listening, without an error.  When a bind fails the
    callback is not called, so that the promise, [Promise.all] and this
    call stay pending for ever, and a socket that has been bound stays
    bound.  (What the runtime does with the error that the socket emits,
    for which the program registers no listener, is not modelled.) *)
Definition createRtpReceiver (roomId : JsVal) (options : Options)
    : M (option nat * PlainTransport) :=
  let listenPort := default RTP_PORT (o_listenPort options) in
  let kind := default "video" (o_kind options) in
  let codec := default "H264" (o_codec options) in
  let payloadType := default 96 (o_payloadType options) in
  let clockRate := default 90000 (o_clockRate options) in
  room <- getOrCreateRoom roomId;;
  r <- room_at room;;
  transport <- createPlainTransport (router r);;
  let rtpPort := tuple_localPort transport in
  let rtcpPort := rtcpTuple_localPort transport in
  rid <- gets (fun w => length (receivers w));;
  modify (with_receivers (fun l => l ++
    [Build_Receiver room transport rtpPort rtcpPort listenPort kind codec
       payloadType clockRate None VNull 0 false false]));;;
  binds <- await (ReqBind listenPort (listenPort + 1));;
  match binds with
  | RspBinds rtp_err rtcp_err =>
      upd_receiver rid
        (set_bound (bool_decide (rtp_err = None))
                   (bool_decide (rtcp_err = None)));;;
      match rtp_err, rtcp_err with
      | None, None =>
          cur <- receiver_at rid;;
          ret (producer cur, transport)
      | _, _ => never
      end
  | RspError e => throw e
  | _ => bad_reply
  end.

(** Line 93: the first producer in iteration order that is a video
    producer and not closed. *)
Definition is_video_open (w : World) (ref : nat) : bool :=
  match producer_heap w !! ref with
  | Some p => String.eqb (p_kind p) "video" && negb (p_closed p)
  | None => false
  end.

Definition find_producer (room : nat) (w : World) : option nat :=
  match room_heap w !! room with
  | Some r => List.find (is_video_open w) (JsMap.values (producers r))
  | None => None
  end.

(** Lines 91-95: [n] is the number of iterations left, [50 - i]. *)
Fixpoint discovery_loop (n : nat) (room : nat) : M (option nat) :=
  match n with
  | O => ret None
  | S n' =>
      producer <- gets (find_producer room);;
      match producer with
      | Some p => ret (Some p)
      | None => sleep 100;;; discovery_loop n' room
      end
  end.

(** Line 105. *)
Definition owned_by (w : World) (transportId : string) (ref : nat) : bool :=
  match consumer_heap w !! ref with
  | Some c => bool_decide (c_transportId c = Some transportId)
  | None => false
  end.

Definition find_consumer (room : nat) (transportId : string) (w : World)
    : option nat :=
  match room_heap w !! room with
  | Some r => List.find (owned_by w transportId) (JsMap.values (consumers r))
  | None => None
  end.

(** Lines 76-109: the [message] handler of a connection. *)
Definition on_message (sid : nat) (data : ClientMsg) : M unit :=
  transport <- gets (session_transport sid);;
  if is_str (action data) "join" then
    room <- getOrCreateRoom (js_or (roomId data) (VStr "default"));;
    r <- room_at room;;
    t <- createWebRtcTransport (router r);;
    set_transport sid t;;;
    upd_room room (with_transports (JsMap.set (VStr (t_id t)) t));;;
    ws_send sid (TransportCreated (t_id t) (iceParameters t)
                   (iceCandidates t) (dtlsParameters t))
  else if is_str (action data) "get-rtp-capabilities" then
    room <- getOrCreateRoom (VStr "default");;
    r <- room_at room;;
    ws_send sid (RtpCapabilities (rtpCapabilities (router r)))
  else
  match is_str (action data) "connect-transport", transport with
  | true, Some t =>
      transport_connect t (msg_dtlsParameters data);;;
      ws_send sid TransportConnected
  | _, _ =>
  match is_str (action data) "consume", transport with
  | true, Some _ =>
      room <- getOrCreateRoom (VStr "default");;
      producer <- discovery_loop 50 room;;
      match producer with
      | None => ws_send sid (Error "No producer available")
      | Some p =>
          pobj <- producer_at p;;
          t <- read_transport sid;;
          consumer <- transport_consume t (p_id pobj) (msg_rtpCapabilities data);;
          cobj <- consumer_at consumer;;
          upd_room room (with_consumers (JsMap.set (VStr (c_id cobj)) consumer));;;
          t <- read_transport sid;;
          upd_consumer consumer (set_c_transportId (t_id t));;;
          cobj <- consumer_at consumer;;
          when (c_paused cobj) (consumer_resume consumer);;;
          cobj <- consumer_at consumer;;
          pobj <- producer_at p;;
          ws_send sid (ConsumerCreated (c_id cobj) (p_id pobj) (c_kind cobj)
                         (c_rtpParameters cobj))
      end
  | _, _ =>
  match is_str (action data) "resume-consumer", transport with
  | true, Some _ =>
      room <- getOrCreateRoom (VStr "default");;
      t <- read_transport sid;;
      consumer <- gets (find_consumer room (t_id t));;
      match consumer with
      | Some c =>
          cobj <- consumer_at c;;
          when (c_paused cobj) (consumer_resume c)
      | None => ret tt
      end;;;
      ws_send sid ConsumerResumed
  | _, _ => ret tt
  end end end.

(** Lines 112-115. *)
Definition main : M unit :=
  initWorkers;;;
  createRtpReceiver (VStr "default") no_options;;;
  ret tt.

(** ** The event loop *)

(** A handler parked on an external operation. *)
Record Task := { awaiting : Request; resume : Response -> World -> Step unit }.

Record System := { world : World; pending : list Task }.

Definition settle (s : Step unit) (pool : list Task) : System :=
  match s with
  | Done _ w => Build_System w pool
  | Fail _ w => Build_System w pool
  | Susp rq w k => Build_System w (pool ++ [Build_Task rq k])
  | Hang w => Build_System w pool
  end.

(** What the event loop can deliver: a new connection, a signalling
    message on a connection, a datagram on a bound socket of a receiver,
    and the settlement of a pending operation with a reply. *)
Inductive Event : Type :=
| Connection
| Message (sid : nat) (data : ClientMsg)
| Rtp (rid : nat) (packet : list byte)
| Rtcp (rid : nat) (packet : list byte)
| Settled (i : nat) (r : Response).

Definition deliver (e : Event) (s : System) : System :=
  match e with
  | Connection =>
      Build_System (with_sessions (fun l => l ++ [None]) (world s)) (pending s)
  | Message sid data =>
      match sessions (world s) !! sid with
      | Some _ => settle (on_message sid data (world s)) (pending s)
      | None => s
      end
  | Rtp rid packet =>
      match receivers (world s) !! rid with
      | Some c =>
          if rtpSocket_bound c
          then settle (on_rtp rid c packet (world s)) (pending s)
          else s
      | None => s
      end
  | Rtcp rid packet =>
      match receivers (world s) !! rid with
      | Some c =>
          if rtcpSocket_bound c
          then settle (on_rtcp rid c packet (world s)) (pending s)
          else s
      | None => s
      end
  | Settled i r =>
      match pending s !! i with
      | Some t => settle (resume t r (world s)) (delete i (pending s))
      | None => s
      end
  end.

Definition run (evs : list Event) (s : System) : System :=
  fold_left (fun s e => deliver e s) evs s.

(** The process right after start-up: [main] has been called. *)
Definition boot : System := settle (main empty_world) [].

(** Feeding a suspended handler its replies, each with the state the
    handler finds when it is resumed; the requests it made are
    collected. *)
Fixpoint drive {A} (s : Step A) (env : list (Response * World))
    : Step A * list Request :=
  match s, env with
  | Susp rq _ k, (r, w') :: env' =>
      let '(s', rqs) := drive (k r w') env' in (s', rq :: rqs)
  | _, _ => (s, [])
  end.

(** ** Vocabulary of the statements *)

(** The state after the acknowledgement of a resume-consumer request,
    and after the engine has resumed consumer [c]. *)
Definition ack (sid : nat) : World -> World :=
  with_outbox (fun o => o ++ [WsSend sid ConsumerResumed]).

Definition resumed (c : nat) : World -> World :=
  with_consumer_heap (upd c (set_c_paused false)).

(** The state a handler finds after the last of a series of
    resumptions. *)
Fixpoint wake (w : World) (env : list (Response * World)) : World :=
  match env with
  | [] => w
  | (_, w') :: env' => wake w' env'
  end.

(** The states in which the first [n] checks of a discovery started in
    [w] are made: [w] itself, then the state after each sleep. *)
Definition checked (n : nat) (w : World) (env : list (Response * World))
    : list World :=
  take n (w :: map snd env).

(** What a room holds in its producer map and in its consumer map, in
    iteration order. *)
Definition room_producers (room : nat) (w : World) : list nat :=
  match room_heap w !! room with
  | Some r => JsMap.values (producers r)
  | None => []
  end.

Definition room_consumers (room : nat) (w : World) : list nat :=
  match room_heap w !! room with
  | Some r => JsMap.values (consumers r)
  | None => []
  end.

(** Producer [p] is a video producer that is not closed; consumer [c]
    carries the id [tid] in its [_transportId]. *)
Definition open_video (w : World) (p : nat) : Prop :=
  exists pobj, producer_heap w !! p = Some pobj /\
               p_kind pobj = "video" /\ p_closed pobj = false.

Definition tagged (w : World) (tid : string) (c : nat) : Prop :=
  exists cobj, consumer_heap w !! c = Some cobj /\
               c_transportId cobj = Some tid.

(** [x] is the first element of [l] that has property [P]. *)
Definition first_with {A} (P : A -> Prop) (l : list A) (x : A) : Prop :=
  exists before after,
    l = before ++ x :: after /\ Forall (fun y => ~ P y) before /\ P x.

(** In none of the states [ws] does the room hold an open video
    producer. *)
Definition misses (room : nat) (ws : list World) : Prop :=
  Forall (fun w => Forall (fun p => ~ open_video w p) (room_producers room w))
    ws.

(** The state after the discovery has reported its failure. *)
Definition no_producer (sid : nat) : World -> World :=
  with_outbox (fun o => o ++ [WsSend sid (Error "No producer available")]).

(** A handler resumed each time in the state in which it was left. *)
Fixpoint alone {A} (s : Step A) (replies : list Response) : Step A :=
  match s, replies with
  | Susp _ w k, r :: rs => alone (k r w) rs
  | _, _ => s
  end.

(** The receiver as [createRtpReceiver] sets it up, and the state after
    the two binds have reported. *)
Definition new_receiver (room : nat) (tr : PlainTransport) (options : Options)
    : Receiver :=
  Build_Receiver room tr (tuple_localPort tr) (rtcpTuple_localPort tr)
    (default RTP_PORT (o_listenPort options))
    (default "video" (o_kind options))
    (default "H264" (o_codec options))
    (default 96 (o_payloadType options))
    (default 90000 (o_clockRate options))
    None VNull 0 false false.

Definition bound_as (rid : nat) (rtp_err rtcp_err : option string)
    : World -> World :=
  with_receivers (upd rid (set_bound (bool_decide (rtp_err = None))
                                     (bool_decide (rtcp_err = None)))).

(** ** Scenarios *)

(** Where a handler stopped, and the error of a failed one. *)
Definition state_of {A} (s : Step A) : World :=
  match s with
  | Done _ w => w
  | Fail _ w => w
  | Susp _ w _ => w
  | Hang w => w
  end.

Definition failure {A} (s : Step A) : option string :=
  match s with
  | Fail e _ => Some e
  | _ => None
  end.

(** Replies of the engine. *)
Definition router_A : Router := Build_Router "router-A" (VObj 1).
Definition router_B : Router := Build_Router "router-B" (VObj 2).
Definition plain_T : PlainTransport :=
  Build_PlainTransport "plain-T" 40000 40001.
Definition producer_P (id : string) : Producer :=
  Build_Producer id "video" false false.
Definition join_msg (room : JsVal) : ClientMsg :=
  Build_ClientMsg (VStr "join") room VUndefined VUndefined.

(** A 12-byte RTP header whose bytes 8-11 hold the SSRC [0]. *)
Definition header_ssrc0 : list byte := replicate 12 x00.

(** A running server: the default room, session 0 with a transport and
    a paused consumer on it, and session 1, which has not joined. *)
Definition transport_X : WebRtcTransport :=
  Build_WebRtcTransport "t-1" (VObj 10) (VObj 11) (VObj 12).
Definition consumer_C : Consumer :=
  Build_Consumer "c-1" "video" (VObj 3) true (Some "t-1").
Definition room_D : Room :=
  Build_Room router_A [(VStr "t-1", transport_X)] [] [(VStr "c-1", 0%nat)].
Definition studio : World :=
  Build_World [1%nat] [(VStr "default", 0%nat)] [room_D] [] [consumer_C]
    [Some transport_X; None] [] [].
Definition msg (a : string) : ClientMsg :=
  Build_ClientMsg (VStr a) VUndefined VUndefined VUndefined.

(** The same server with producers in the default room: in
    [studio_stale] a video producer that has been closed, in
    [studio_mixed] that one, an audio producer and, last, an open video
    producer. *)
Definition producer_closed : Producer := Build_Producer "p-0" "video" false true.
Definition producer_audio : Producer := Build_Producer "p-a" "audio" false false.
Definition studio_stale : World :=
  Build_World [1%nat] [(VStr "default", 0%nat)]
    [Build_Room router_A [(VStr "t-1", transport_X)]
       [(VStr "p-0", 0%nat); (VNum 5, 0%nat)] [(VStr "c-1", 0%nat)]]
    [producer_closed] [consumer_C] [Some transport_X; None] [] [].
Definition studio_mixed : World :=
  Build_World [1%nat] [(VStr "default", 0%nat)]
    [Build_Room router_A [(VStr "t-1", transport_X)]
       [(VStr "p-0", 0%nat); (VNum 5, 0%nat); (VStr "p-a", 1%nat);
        (VStr "p-1", 2%nat); (VNum 7, 2%nat)]
       [(VStr "c-1", 0%nat)]]
    [producer_closed; producer_audio; producer_P "p-1"] [consumer_C]
    [Some transport_X; None] [] [].

(** The same server with two viewers: the room holds first the paused
    consumer of another transport, then the paused consumer of the
    transport of session 0. *)
Definition consumer_other : Consumer :=
  Build_Consumer "c-0" "video" (VObj 4) true (Some "t-0").
Definition transport_other : WebRtcTransport :=
  Build_WebRtcTransport "t-0" (VObj 20) (VObj 21) (VObj 22).
Definition studio_shared : World :=
  Build_World [1%nat] [(VStr "default", 0%nat)]
    [Build_Room router_A
       [(VStr "t-0", transport_other); (VStr "t-1", transport_X)] []
       [(VStr "c-0", 0%nat); (VStr "c-1", 1%nat)]]
    [] [consumer_other; consumer_C]
    [Some transport_X; Some transport_other] [] [].

(** ** Guarantees *)

(** [seg R w0 s]: the stretch of a handler that runs from [w0] up to its
    next suspension takes the state along [R], and so does every later
    stretch, in whatever state the handler is resumed. *)
Fixpoint seg (R : World -> World -> Prop) {A} (w0 : World) (s : Step A)
    : Prop :=
  match s with
  | Done _ w => R w0 w
  | Fail _ w => R w0 w
  | Susp _ w k => R w0 w /\ forall r w', seg R w' (k r w')
  | Hang w => R w0 w
  end.

Definition respects (R : World -> World -> Prop) {A} (m : M A) : Prop :=
  forall w, seg R w (m w).

Definition guar (R : World -> World -> Prop) (f : World -> World) : Prop :=
  forall w, R w (f w).

Definition pool_respects (R : World -> World -> Prop) (pool : list Task)
    : Prop :=
  Forall (fun t => forall r w, seg R w (resume t r w)) pool.

(** No key leaves the transport map of a room. *)
Definition keeps_transports (w w' : World) : Prop :=
  forall d r tid,
    room_heap w !! d = Some r -> JsMap.has tid (transports r) = true ->
    exists r', room_heap w' !! d = Some r' /\
               JsMap.has tid (transports r') = true.

(** The state after a join has completed with transport [t]. *)
Definition joined (sid d : nat) (t : WebRtcTransport) (w : World) : World :=
  with_outbox
    (fun o => o ++ [WsSend sid (TransportCreated (t_id t) (iceParameters t)
                                  (iceCandidates t) (dtlsParameters t))])
    (with_room_heap (upd d (with_transports (JsMap.set (VStr (t_id t)) t)))
       (with_sessions (fun l => <[sid := Some t]> l) w)).

(** An RTP datagram has been forwarded for receiver [rid]. *)
Definition sent_rtp (rid : nat) (o : list Output) : Prop :=
  exists packet port host, UdpSend (rtpForward rid) packet port host ∈ o.

(** The receiver's variable [producer] is set. *)
Definition has_producer (rid : nat) (w : World) : Prop :=
  exists cur p, receivers w !! rid = Some cur /\ producer cur = Some p.

(** Nothing has been forwarded for a receiver without a producer. *)
Definition forwards_after_producer (w : World) : Prop :=
  forall rid, sent_rtp rid (outbox w) -> has_producer rid w.

(** A producer stays, and so does [forwards_after_producer]. *)
Definition steady (w w' : World) : Prop :=
  (forall rid, has_producer rid w -> has_producer rid w') /\
  (forwards_after_producer w -> forwards_after_producer w').

(** A successful reply to a request. *)
Definition engine_ok (rq : Request) (r : Response) : Prop :=
  match rq, r with
  | ReqCreateWorker, RspWorker _
  | ReqCreateRouter _ _, RspRouter _
  | ReqCreatePlainTransport _, RspPlainTransport _
  | ReqCreateWebRtcTransport _, RspWebRtcTransport _
  | ReqConnect _ _, RspOk
  | ReqProduce _ _ _, RspProducer _
  | ReqProducerResume _, RspOk
  | ReqConsume _ _ _, RspConsumer _
  | ReqConsumerResume _, RspOk
  | ReqSleep _, _
  | ReqBind _ _, RspBinds None None => True
  | _, _ => False
  end.

(** [ends_forwarding rid x s]: whenever the engine answers the handler's
    requests successfully, and whatever else happens to the state while
    the handler is suspended (short of clearing the receiver's
    [producer]), the handler finishes, and the last thing it does is to
    send [x]. *)
Fixpoint ends_forwarding (rid : nat) (x : Output) (s : Step unit) : Prop :=
  match s with
  | Done _ w => last (outbox w) = Some x
  | Fail _ _ => False
  | Susp rq w k =>
      forall r w',
        engine_ok rq r ->
        (has_producer rid w -> has_producer rid w') ->
        ends_forwarding rid x (k r w')
  | Hang _ => False
  end.

(** The part of [on_rtp] before the forwarding on line 57 leaves the
    receiver with a producer. *)
Fixpoint leads_to_producer (rid : nat) (s : Step unit) : Prop :=
  match s with
  | Done _ w => has_producer rid w
  | Fail _ _ => False
  | Susp rq w k =>
      forall r w',
        engine_ok rq r ->
        (has_producer rid w -> has_producer rid w') ->
        leads_to_producer rid (k r w')
  | Hang _ => False
  end.

(** ** Vocabulary of the further statements *)

(** The requests a handler makes when it is resumed each time in the
    state in which it was left. *)
Fixpoint requests_alone {A} (s : Step A) (replies : list Response)
    : list Request :=
  match s, replies with
  | Susp rq w k, r :: rs => rq :: requests_alone (k r w) rs
  | Susp rq _ _, [] => [rq]
  | _, _ => []
  end.

(** The state after [getOrCreateRoom] has registered a new room for
    [key] around router [R]. *)
Definition room_created (key : JsVal) (R : Router) (w : World) : World :=
  with_rooms (JsMap.set key (length (room_heap w)))
    (with_room_heap (fun h => h ++ [Build_Room R [] [] []]) w).

(** The state after a consume has registered consumer [c] (the object
    [cobj] the engine returned) in room [room] and tagged it with the
    transport id [tid]; and the state after it has reported an object
    [cobj] as created for producer [pid]. *)
Definition consumer_added (room c : nat) (cobj : Consumer) (tid : string)
    (w : World) : World :=
  with_consumer_heap (upd c (set_c_transportId tid))
    (with_room_heap
       (upd room (with_consumers (JsMap.set (VStr (c_id cobj)) c)))
       (with_consumer_heap (fun h => h ++ [cobj]) w)).

Definition consumer_reported (sid : nat) (cobj : Consumer) (pid : string)
    : World -> World :=
  with_outbox (fun o => o ++
    [WsSend sid (ConsumerCreated (c_id cobj) pid (c_kind cobj)
                   (c_rtpParameters cobj))]).

(** The state after the reply to a capability query and to a
    connect-transport. *)
Definition capabilities_sent (sid : nat) (R : Router) : World -> World :=
  with_outbox (fun o => o ++
    [WsSend sid (RtpCapabilities (rtpCapabilities R))]).

Definition connected (sid : nat) : World -> World :=
  with_outbox (fun o => o ++ [WsSend sid TransportConnected]).

(** The process when start-up has gone through with worker [wk], router
    [R] and plain transport [T]. *)
Definition started (wk : nat) (R : Router) (T : PlainTransport) : World :=
  Build_World [wk] [(VStr "default", 0%nat)] [Build_Room R [] [] []] [] [] []
    [Build_Receiver 0 T (tuple_localPort T) (rtcpTuple_localPort T)
       5004 "video" "H264" 96 90000 None VNull 0 true true]
    [].

(** The running server of [studio], now with a live video producer
    (SSRC 7) in the default room. *)
Definition studio_live : World :=
  Build_World [1%nat] [(VStr "default", 0%nat)]
    [Build_Room router_A [(VStr "t-1", transport_X)]
       [(VStr "p-1", 0%nat); (VNum 7, 0%nat)] [(VStr "c-1", 0%nat)]]
    [producer_P "p-1"] [consumer_C] [Some transport_X; None] [] [].

(** That server with its receiver, which has detected the SSRC 7 and
    holds the producer. *)
Definition receiver_live : Receiver :=
  set_producer (Some 0%nat)
    (set_ssrc (VNum 7) (new_receiver 0 plain_T no_options)).
Definition studio_streaming : World :=
  with_receivers (fun _ => [receiver_live]) studio_live.

(** The state in which [on_rtp] asks for a producer: the counter bumped
    and the SSRC [v] stored. *)
Definition detecting (rid : nat) (v : Z) (w : World) : World :=
  with_receivers (upd rid (set_ssrc (VNum v)))
    (with_receivers (upd rid incr_packetCount) w).

(** A byte as a number. *)
Definition byte_val (b : byte) : Z := Z.of_N (Byte.to_N b).

(** A session that has a transport keeps having one. *)
Definition keeps_sessions (w w' : World) : Prop :=
  (length (sessions w) <= length (sessions w'))%nat /\
  forall sid t, session_transport sid w = Some t ->
                exists t', session_transport sid w' = Some t'.

(** What the handler of a message on session [sid] may do to the state:
    nothing to the workers, the producers, the receivers, the other
    sessions, or the router and the producer map of an existing room;
    and all it sends goes to its own client. *)
Definition signalling_only (sid : nat) (w w' : World) : Prop :=
  workers w' = workers w /\
  producer_heap w' = producer_heap w /\
  receivers w' = receivers w /\
  (forall sid', sid' <> sid -> sessions w' !! sid' = sessions w !! sid') /\
  (forall d r, room_heap w !! d = Some r ->
     exists r', room_heap w' !! d = Some r' /\
                router r' = router r /\ producers r' = producers r) /\
  exists l, outbox w' = outbox w ++ l /\
            Forall (fun o => exists m, o = WsSend sid m) l.

(** What the handler of a datagram on receiver [rid] may do: nothing to
    the workers, the registry, the sessions, the consumers, the other
    receivers, or the router and the transport and consumer maps of a
    room; and all it sends is [x]. *)
Definition ingestion_only (rid : nat) (x : Output) (w w' : World) : Prop :=
  workers w' = workers w /\
  rooms w' = rooms w /\
  sessions w' = sessions w /\
  consumer_heap w' = consumer_heap w /\
  length (room_heap w') = length (room_heap w) /\
  (forall rid', rid' <> rid -> receivers w' !! rid' = receivers w !! rid') /\
  (forall d r, room_heap w !! d = Some r ->
     exists r', room_heap w' !! d = Some r' /\
                router r' = router r /\ transports r' = transports r /\
                consumers r' = consumers r) /\
  exists l, outbox w' = outbox w ++ l /\ Forall (fun o => o = x) l.

(** Every object of heap [h] is still there in [h'], changed at most
    along [Q]. *)
Definition heap_kept {A} (Q : A -> A -> Prop) (h h' : list A) : Prop :=
  forall i x, h !! i = Some x -> exists x', h' !! i = Some x' /\ Q x x'.

(** A room keeps its router and the keys of its producer and consumer
    maps; a producer keeps its id, its kind and its [closed] flag, and
    is not paused if it was not; likewise a consumer. *)
Definition room_kept (r r' : Room) : Prop :=
  router r' = router r /\
  (forall k, JsMap.has k (producers r) = true ->
             JsMap.has k (producers r') = true) /\
  (forall k, JsMap.has k (consumers r) = true ->
             JsMap.has k (consumers r') = true).

Definition producer_kept (p p' : Producer) : Prop :=
  p_id p' = p_id p /\ p_kind p' = p_kind p /\ p_closed p' = p_closed p /\
  (p_paused p' = true -> p_paused p = true).

Definition consumer_kept (c c' : Consumer) : Prop :=
  c_id c' = c_id c /\ c_kind c' = c_kind c /\
  c_rtpParameters c' = c_rtpParameters c /\
  (c_paused c' = true -> c_paused c = true).

(** Nothing is removed, closed or paused. *)
Definition only_grows (w w' : World) : Prop :=
  (forall key, JsMap.has key (rooms w) = true ->
               JsMap.has key (rooms w') = true) /\
  heap_kept room_kept (room_heap w) (room_heap w') /\
  heap_kept producer_kept (producer_heap w) (producer_heap w') /\
  heap_kept consumer_kept (consumer_heap w) (consumer_heap w').

(** Every entry of a room's maps that is keyed by an id holds the object
    with that id. *)
Definition room_indexed (ph : list Producer) (ch : list Consumer) (r : Room)
    : Prop :=
  (forall id t, JsMap.get (VStr id) (transports r) = Some t -> t_id t = id) /\
  (forall id p, JsMap.get (VStr id) (producers r) = Some p ->
     exists pobj, ph !! p = Some pobj /\ p_id pobj = id) /\
  (forall id c, JsMap.get (VStr id) (consumers r) = Some c ->
     exists cobj, ch !! c = Some cobj /\ c_id cobj = id).

(** All rooms are indexed, and no receiver's [ssrc] is a string (it is
    [null] or a number). *)
Definition indexed (w : World) : Prop :=
  (forall rid cur s, receivers w !! rid = Some cur -> ssrc cur <> VStr s) /\
  (forall d r, room_heap w !! d = Some r ->
               room_indexed (producer_heap w) (consumer_heap w) r).

Definition stays_indexed (w w' : World) : Prop := indexed w -> indexed w'.

(** * Properties *)

Section JsMapFacts.
Context {V : Type}.
Implicit Types (m : JsMap.t V) (k : JsVal) (v : V).

Lemma JsMap_get_set_eq k v m : JsMap.get k (JsMap.set k v m) = Some v.
Proof.
  induction m as [|[k' v'] m IH]; simpl.
  - by rewrite decide_True.
  - destruct (decide (k = k')) as [->|Hne]; simpl.
    + by rewrite decide_True.
    + by rewrite decide_False.
Qed.

Lemma JsMap_get_set_ne k k' v m :
  k <> k' -> JsMap.get k' (JsMap.set k v m) = JsMap.get k' m.
Proof.
  intros Hne. induction m as [|[k0 v0] m IH]; simpl.
  - by rewrite decide_False.
  - destruct (decide (k = k0)) as [->|Hne0]; simpl.
    + by rewrite !decide_False.
    + destruct (decide (k' = k0)); [done | exact IH].
Qed.

Lemma JsMap_has_set_eq k v m : JsMap.has k (JsMap.set k v m) = true.
Proof. unfold JsMap.has. by rewrite JsMap_get_set_eq. Qed.

Lemma JsMap_has_set_mono k k' v m :
  JsMap.has k' m = true -> JsMap.has k' (JsMap.set k v m) = true.
Proof.
  destruct (decide (k = k')) as [->|Hne].
  - intros _. apply JsMap_has_set_eq.
  - unfold JsMap.has. by rewrite JsMap_get_set_ne.
Qed.

End JsMapFacts.

Arguments discovery_loop : simpl never.

(** ** Basic facts *)

Lemma is_str_true v lit : is_str v lit = true <-> v = VStr lit.
Proof.
  destruct v; simpl; try (split; [discriminate | congruence]).
  rewrite String.eqb_eq. split; congruence.
Qed.

Lemma is_str_false v lit : is_str v lit = false <-> v <> VStr lit.
Proof.
  rewrite <- is_str_true. destruct (is_str v lit); split; congruence.
Qed.

Lemma js_or_falsy a b : truthy a = false -> js_or a b = b.
Proof. unfold js_or. by intros ->. Qed.

(** ** Searching the values of a map *)

Section Find.
Context {A : Type} (f : A -> bool) (P : A -> Prop).
Hypothesis f_spec : forall x, f x = true <-> P x.

Lemma find_first_with (l : list A) (x : A) :
  List.find f l = Some x <-> first_with P l x.
Proof.
  induction l as [|y l IH]; simpl.
  - split; [done|]. intros (b & a & H & _). by destruct b.
  - destruct (f y) eqn:Hy.
    + split.
      * intros [= ->]. exists [], l. repeat split; [constructor|].
        by apply f_spec.
      * intros (b & a & Hl & Hb & Hx). destruct b as [|z b]; simpl in Hl.
        -- by injection Hl as -> _.
        -- injection Hl as -> _. apply Forall_cons in Hb as [Hz _].
           destruct Hz. by apply f_spec.
    + rewrite IH. split.
      * intros (b & a & -> & Hb & Hx). exists (y :: b), a.
        repeat split; [|done]. constructor; [|done].
        rewrite <- f_spec. congruence.
      * intros (b & a & Hl & Hb & Hx). destruct b as [|z b]; simpl in Hl.
        -- injection Hl as -> _. apply f_spec in Hx. congruence.
        -- injection Hl as _ ->. apply Forall_cons in Hb as [_ Hb].
           by exists b, a.
Qed.

Lemma find_none_with (l : list A) :
  List.find f l = None <-> Forall (fun y => ~ P y) l.
Proof.
  induction l as [|y l IH]; simpl; [by split|].
  destruct (f y) eqn:Hy.
  - split; [done|]. intros H. apply Forall_cons in H as [H _].
    destruct H. by apply f_spec.
  - rewrite IH. split.
    + intros H. constructor; [|done]. rewrite <- f_spec. congruence.
    + intros H. by apply Forall_cons in H as [_ H].
Qed.

Lemma first_with_exists (l : list A) (x0 : A) :
  x0 ∈ l -> P x0 -> exists x, first_with P l x.
Proof.
  intros Hin HP. destruct (List.find f l) as [x|] eqn:Hfind.
  - exists x. by apply find_first_with.
  - apply find_none_with in Hfind. rewrite Forall_forall in Hfind.
    by destruct (Hfind x0 Hin).
Qed.
End Find.

Lemma is_video_open_spec w p : is_video_open w p = true <-> open_video w p.
Proof.
  unfold is_video_open, open_video.
  destruct (producer_heap w !! p) as [pobj|]; split.
  - intros H. apply andb_true_iff in H as [H1 H2].
    apply String.eqb_eq in H1. apply negb_true_iff in H2. by exists pobj.
  - intros (pobj' & [= <-] & Hk & Hc). rewrite Hk, Hc. done.
  - done.
  - by intros (pobj & ? & _).
Qed.

Lemma owned_by_spec w tid c : owned_by w tid c = true <-> tagged w tid c.
Proof.
  unfold owned_by, tagged. destruct (consumer_heap w !! c) as [cobj|]; split.
  - intros H. apply bool_decide_eq_true in H. by exists cobj.
  - intros (cobj' & [= <-] & H). by apply bool_decide_eq_true.
  - done.
  - by intros (cobj & ? & _).
Qed.

Lemma find_producer_first room w p :
  find_producer room w = Some p
  <-> first_with (open_video w) (room_producers room w) p.
Proof.
  unfold find_producer, room_producers. destruct (room_heap w !! room).
  - apply find_first_with, is_video_open_spec.
  - split; [done|]. intros (b & a & H & _). by destruct b.
Qed.

Lemma find_producer_none room w :
  find_producer room w = None
  <-> Forall (fun p => ~ open_video w p) (room_producers room w).
Proof.
  unfold find_producer, room_producers. destruct (room_heap w !! room).
  - apply find_none_with, is_video_open_spec.
  - by split.
Qed.

Lemma find_consumer_first room tid w c :
  find_consumer room tid w = Some c
  <-> first_with (tagged w tid) (room_consumers room w) c.
Proof.
  unfold find_consumer, room_consumers. destruct (room_heap w !! room).
  - apply find_first_with, owned_by_spec.
  - split; [done|]. intros (b & a & H & _). by destruct b.
Qed.

Lemma find_consumer_none room tid w :
  find_consumer room tid w = None
  <-> Forall (fun c => ~ tagged w tid c) (room_consumers room w).
Proof.
  unfold find_consumer, room_consumers. destruct (room_heap w !! room).
  - apply find_none_with, owned_by_spec.
  - by split.
Qed.

(** ** Session guards *)

(** C10: a message whose action is none of the five known ones is
    ignored: the handler finishes at once, nothing is sent and the state
    is what it was. *)
Theorem unknown_action_ignored (sid : nat) (data : ClientMsg) (w : World) :
  action data <> VStr "join" ->
  action data <> VStr "get-rtp-capabilities" ->
  action data <> VStr "connect-transport" ->
  action data <> VStr "consume" ->
  action data <> VStr "resume-consumer" ->
  on_message sid data w = Done tt w.
Proof.
  intros H1 H2 H3 H4 H5.
  apply is_str_false in H1, H2, H3, H4, H5.
  unfold on_message, bind, gets. simpl.
  by rewrite H1, H2, H3, H4, H5.
Qed.

Lemma unknown_action_ignored_witness :
  on_message 0 (msg "ping") studio = Done tt studio.
Proof. apply unknown_action_ignored; discriminate. Defined.

(** C7: without a transport on the session, connect-transport, consume
    and resume-consumer are ignored: the handler finishes at once,
    nothing is sent and the state is what it was. *)
Theorem no_transport_no_op (sid : nat) (data : ClientMsg) (w : World) :
  session_transport sid w = None ->
  action data = VStr "connect-transport" \/ action data = VStr "consume"
    \/ action data = VStr "resume-consumer" ->
  on_message sid data w = Done tt w.
Proof.
  intros Hnone Hact.
  unfold on_message, bind, gets. simpl. rewrite Hnone.
  destruct Hact as [-> | [-> | ->]]; reflexivity.
Qed.

Lemma no_transport_no_op_witness :
  session_transport 1 studio = None /\
  on_message 1 (msg "consume") studio = Done tt studio.
Proof.
  split; [reflexivity|].
  apply no_transport_no_op; [reflexivity | right; left; reflexivity].
Defined.

(** ** The room registry *)

Lemma getOrCreateRoom_present key d w :
  JsMap.get key (rooms w) = Some d -> getOrCreateRoom key w = Done d w.
Proof.
  intros H. unfold getOrCreateRoom, bind, gets, JsMap.has. simpl.
  rewrite H. simpl. by rewrite H.
Qed.

Lemma getOrCreateRoom_absent key wk w :
  JsMap.get key (rooms w) = None -> workers w !! 0%nat = Some wk ->
  exists k,
    getOrCreateRoom key w = Susp (ReqCreateRouter wk mediaCodecs) w k /\
    forall R w',
      k (RspRouter R) w' =
        Done (length (room_heap w'))
          (with_rooms (JsMap.set key (length (room_heap w')))
             (with_room_heap (fun h => h ++ [Build_Room R [] [] []]) w')).
Proof.
  intros H Hwk. unfold getOrCreateRoom, bind, gets, JsMap.has. simpl.
  rewrite H. simpl. rewrite Hwk. simpl.
  eexists. split; [reflexivity|].
  intros R w'. simpl. by rewrite JsMap_get_set_eq.
Qed.

Lemma getOrCreateRoom_rejected key wk w :
  JsMap.get key (rooms w) = None -> workers w !! 0%nat = Some wk ->
  exists k,
    getOrCreateRoom key w = Susp (ReqCreateRouter wk mediaCodecs) w k /\
    (forall R w', k (RspRouter R) w'
                  = Done (length (room_heap w')) (room_created key R w')) /\
    (forall e w', k (RspError e) w' = Fail e w').
Proof.
  intros H Hwk. unfold getOrCreateRoom, bind, gets, JsMap.has. simpl.
  rewrite H. simpl. rewrite Hwk. simpl.
  eexists. split; [reflexivity|]. split.
  - intros R w'. simpl. by rewrite JsMap_get_set_eq.
  - intros e w'. reflexivity.
Qed.

Lemma discovery_loop_S n room w :
  discovery_loop (S n) room w =
    match find_producer room w with
    | Some p => Done (Some p) w
    | None => Susp (ReqSleep 100) w (fun _ w' => discovery_loop n room w')
    end.
Proof.
  unfold discovery_loop at 1; fold discovery_loop. unfold bind, gets. simpl.
  by destruct (find_producer room w).
Qed.

Lemma discovery_found n room w p :
  find_producer room w = Some p ->
  discovery_loop (S n) room w = Done (Some p) w.
Proof.
  intros H. unfold discovery_loop, bind, gets. simpl. by rewrite H.
Qed.

Lemma deref_Some {A} (heap : World -> list A) ref x w :
  heap w !! ref = Some x -> deref heap ref w = Done x w.
Proof. unfold deref. by intros ->. Qed.

Ltac handler_steps :=
  unfold on_message, bind, gets; simpl.

(** C9: a join whose [roomId] is falsy (absent, [null], [false], [0],
    the empty string) works on the room keyed ["default"]: it behaves as
    a join that names ["default"]; and when that room exists, its router
    gets the new transport and its map records it, and it is the room
    whose capabilities get-rtp-capabilities reports, whose producers
    consume searches and whose consumers resume-consumer searches. *)
Theorem join_falsy_roomId_is_default (sid : nat) (data : ClientMsg) :
  action data = VStr "join" ->
  truthy (roomId data) = false ->
  js_or (roomId data) (VStr "default") = VStr "default" /\
  (forall w,
     on_message sid data w =
     on_message sid (Build_ClientMsg (VStr "join") (VStr "default")
                       (msg_dtlsParameters data) (msg_rtpCapabilities data))
       w) /\
  (forall w d r,
     JsMap.get (VStr "default") (rooms w) = Some d ->
     room_heap w !! d = Some r ->
     (exists k,
        on_message sid data w
          = Susp (ReqCreateWebRtcTransport (r_id (router r))) w k /\
        forall t w',
          k (RspWebRtcTransport t) w' = Done tt (joined sid d t w')) /\
     (forall q, action q = VStr "get-rtp-capabilities" ->
        on_message sid q w =
          Done tt (with_outbox (fun o => o ++
            [WsSend sid (RtpCapabilities (rtpCapabilities (router r)))]) w)) /\
     (forall q t p pobj,
        action q = VStr "consume" ->
        session_transport sid w = Some t ->
        find_producer d w = Some p ->
        producer_heap w !! p = Some pobj ->
        exists k, on_message sid q w =
          Susp (ReqConsume (t_id t) (p_id pobj) (msg_rtpCapabilities q)) w k) /\
     (forall q t,
        action q = VStr "resume-consumer" ->
        session_transport sid w = Some t ->
        find_consumer d (t_id t) w = None ->
        on_message sid q w = Done tt (ack sid w))).
Proof.
  intros Ha Hf. split; [by apply js_or_falsy|]. split.
  - intros w. handler_steps. rewrite Ha. simpl. by rewrite js_or_falsy.
  - intros w d r Hd Hr. repeat split.
    + handler_steps. rewrite Ha. simpl. rewrite js_or_falsy by done.
      rewrite (getOrCreateRoom_present _ d) by done. simpl.
      unfold room_at. rewrite (deref_Some _ _ r) by done. simpl.
      eexists. split; [reflexivity|]. intros t w'. reflexivity.
    + intros q Hq. handler_steps. rewrite Hq. simpl.
      rewrite (getOrCreateRoom_present _ d) by done. simpl.
      unfold room_at. by rewrite (deref_Some _ _ r).
    + intros q t p pobj Hq Ht Hp Hpo. handler_steps. rewrite Hq, Ht. simpl.
      rewrite (getOrCreateRoom_present _ d) by done. simpl.
      rewrite (discovery_found _ _ _ p) by done. simpl.
      unfold producer_at. rewrite (deref_Some _ _ pobj) by done. simpl.
      unfold read_transport. rewrite Ht. simpl. eauto.
    + intros q t Hq Ht Hc. handler_steps. rewrite Hq, Ht. simpl.
      rewrite (getOrCreateRoom_present _ d) by done. simpl.
      unfold read_transport. rewrite Ht. simpl. by rewrite Hc.
Qed.

Lemma join_falsy_roomId_is_default_witness :
  truthy (VStr EmptyString) = false /\
  js_or (roomId (join_msg (VStr EmptyString))) (VStr "default")
    = VStr "default".
Proof.
  split; [reflexivity|].
  exact (proj1 (join_falsy_roomId_is_default 0 (join_msg (VStr EmptyString))
                  eq_refl eq_refl)).
Defined.

(** ** Resuming a consumer *)

Lemma upd_lookup {A} (i j : nat) (f : A -> A) (l : list A) :
  upd i f l !! j = if decide (i = j) then f <$> l !! i else l !! j.
Proof.
  unfold upd. destruct (l !! i) as [x|] eqn:Hi.
  - destruct (decide (i = j)) as [<-|Hne].
    + rewrite list_lookup_insert_eq; [done|]. by eapply lookup_lt_Some.
    + by rewrite list_lookup_insert_ne.
  - destruct (decide (i = j)) as [<-|Hne]; [by rewrite Hi | done].
Qed.

Lemma find_ext {A} (f g : A -> bool) (l : list A) :
  (forall x, f x = g x) -> List.find f l = List.find g l.
Proof.
  intros H. induction l as [|x l IH]; simpl; [done|].
  rewrite H. by destruct (g x).
Qed.

Lemma find_consumer_resumed sid room tid c w :
  find_consumer room tid (ack sid (resumed c w)) = find_consumer room tid w.
Proof.
  unfold find_consumer. simpl. destruct (room_heap w !! room) as [r|]; [|done].
  apply find_ext. intros ref. unfold owned_by. simpl.
  rewrite upd_lookup. destruct (decide (c = ref)) as [->|]; [|done].
  by destruct (consumer_heap w !! ref).
Qed.

(** C6, as the code has it: resume-consumer on a session with a
    transport takes, among the consumers of the default room in the
    order of the map, the first one whose [_transportId] is the id of
    the session's transport, and no other.  It resumes that consumer
    only if it is paused.  It then acknowledges with consumer-resumed,
    and so it does when there is no such consumer; but when the engine
    rejects the resume the handler fails there and sends nothing.  On a
    consumer that is already resumed a further request changes nothing
    but the outbox, which gets the acknowledgement.  (Should the default
    room not exist yet, it is created first, and the request is
    acknowledged unless that creation is rejected.) *)
Theorem resume_consumer_idempotent (sid : nat) (q : ClientMsg) (w : World)
    (t : WebRtcTransport) :
  action q = VStr "resume-consumer" ->
  session_transport sid w = Some t ->
  (forall d,
     JsMap.get (VStr "default") (rooms w) = Some d ->
     (Forall (fun c => ~ tagged w (t_id t) c) (room_consumers d w) ->
        on_message sid q w = Done tt (ack sid w)) /\
     (forall c cobj,
        first_with (tagged w (t_id t)) (room_consumers d w) c ->
        consumer_heap w !! c = Some cobj ->
        c_paused cobj = false ->
        on_message sid q w = Done tt (ack sid w) /\
        on_message sid q (ack sid w) = Done tt (ack sid (ack sid w))) /\
     (forall c cobj,
        first_with (tagged w (t_id t)) (room_consumers d w) c ->
        consumer_heap w !! c = Some cobj ->
        c_paused cobj = true ->
        (exists k,
           on_message sid q w = Susp (ReqConsumerResume (c_id cobj)) w k /\
           (forall w', k RspOk w' = Done tt (ack sid (resumed c w'))) /\
           (forall e w', k (RspError e) w' = Fail e w')) /\
        let w1 := ack sid (resumed c w) in
        consumer_heap w1 !! c = Some (set_c_paused false cobj) /\
        on_message sid q w1 = Done tt (ack sid w1))) /\
  (forall wk,
     JsMap.get (VStr "default") (rooms w) = None ->
     workers w !! 0%nat = Some wk ->
     exists k,
       on_message sid q w = Susp (ReqCreateRouter wk mediaCodecs) w k /\
       (forall R w' t',
         session_transport sid w' = Some t' ->
         k (RspRouter R) w' =
           Done tt (ack sid
             (with_rooms (JsMap.set (VStr "default") (length (room_heap w')))
                (with_room_heap (fun h => h ++ [Build_Room R [] [] []]) w')))) /\
       (forall e w', k (RspError e) w' = Fail e w')).
Proof.
  intros Hq Ht.
  assert (Hstill : forall w0 d, session_transport sid w0 = Some t ->
            JsMap.get (VStr "default") (rooms w0) = Some d ->
            forall c cobj, find_consumer d (t_id t) w0 = Some c ->
            consumer_heap w0 !! c = Some cobj -> c_paused cobj = false ->
            on_message sid q w0 = Done tt (ack sid w0)).
  { intros w0 d Ht0 Hd0 c cobj Hc Hh Hp. handler_steps. rewrite Hq, Ht0. simpl.
    rewrite (getOrCreateRoom_present _ d) by done. simpl.
    unfold read_transport. rewrite Ht0. simpl. rewrite Hc. simpl.
    unfold consumer_at. rewrite (deref_Some _ _ cobj) by done. simpl.
    by rewrite Hp. }
  split.
  - intros d Hd. split; [|split].
    + intros Hc. apply find_consumer_none in Hc.
      handler_steps. rewrite Hq, Ht. simpl.
      rewrite (getOrCreateRoom_present _ d) by done. simpl.
      unfold read_transport. rewrite Ht. simpl. by rewrite Hc.
    + intros c cobj Hc Hh Hp. apply find_consumer_first in Hc.
      split; [by eapply Hstill|].
      eapply (Hstill (ack sid w)); try done.
    + intros c cobj Hc Hh Hp. apply find_consumer_first in Hc.
      split; [|split].
      * handler_steps. rewrite Hq, Ht. simpl.
        rewrite (getOrCreateRoom_present _ d) by done. simpl.
        unfold read_transport. rewrite Ht. simpl. rewrite Hc. simpl.
        unfold consumer_at. rewrite (deref_Some _ _ cobj) by done. simpl.
        rewrite Hp. simpl. unfold consumer_resume, bind, consumer_at.
        rewrite (deref_Some _ _ cobj) by done. simpl.
        eexists. split; [reflexivity|]. split; intros; reflexivity.
      * simpl. rewrite upd_lookup, decide_True by done. by rewrite Hh.
      * eapply (Hstill (ack sid (resumed c w))); try done.
        -- by rewrite find_consumer_resumed.
        -- simpl. rewrite upd_lookup, decide_True by done. by rewrite Hh.
        -- reflexivity.
  - intros wk Hnone Hwk.
    destruct (getOrCreateRoom_rejected _ wk w Hnone Hwk)
      as (k & Hk & Hres & Hrej).
    handler_steps. rewrite Hq, Ht. simpl. rewrite Hk. simpl.
    eexists. split; [reflexivity|]. split.
    + intros R w' t' Ht'. simpl.
      rewrite Hres. unfold room_created. simpl. unfold read_transport.
      replace (session_transport sid _) with (Some t') by (by rewrite <- Ht').
      simpl. unfold find_consumer. simpl.
      by rewrite list_lookup_middle.
    + intros e w'. simpl. by rewrite Hrej.
Qed.

Lemma resume_consumer_idempotent_witness :
  session_transport 0 studio_shared = Some transport_X /\
  room_consumers 0 studio_shared = [0%nat; 1%nat] /\
  (c_transportId <$> consumer_heap studio_shared !! 0%nat)
    = Some (Some "t-0") /\
  exists k,
    on_message 0 (msg "resume-consumer") studio_shared
      = Susp (ReqConsumerResume "c-1") studio_shared k /\
    (forall w', k RspOk w' = Done tt (ack 0 (resumed 1 w'))) /\
    (forall e w', k (RspError e) w' = Fail e w').
Proof.
  split; [reflexivity|]. split; [reflexivity|]. split; [reflexivity|].
  destruct (resume_consumer_idempotent 0 (msg "resume-consumer") studio_shared
              transport_X eq_refl eq_refl) as [H _].
  destruct (H 0%nat eq_refl) as (_ & _ & H3).
  destruct (H3 1%nat consumer_C) as [Hk _]; [|reflexivity|reflexivity|exact Hk].
  exists [0%nat], []. split; [reflexivity|]. split.
  - constructor; [|constructor]. intros (cobj & Hc & Ht).
    injection Hc as <-. discriminate Ht.
  - by exists consumer_C.
Defined.

(** C6, counterexample: the session's consumer is paused and the engine
    rejects its resume.  The handler fails with that error; no
    consumer-resumed, and nothing else, has been sent. *)
Lemma resume_rejected_not_acknowledged :
  let s := alone (on_message 0 (msg "resume-consumer") studio)
                 [RspError "rejected"] in
  failure s = Some "rejected" /\ outbox (state_of s) = [].
Proof. vm_compute. done. Qed.

(** ** Producer discovery *)

Lemma drive_discovery_miss {B} room (kont : option nat -> M B) rest env :
  forall w,
    misses room (checked (length env) w env) ->
    drive (bindS (discovery_loop (length env) room w) kont) (env ++ rest) =
      (let '(s, rqs) := drive (kont None (wake w env)) rest in
       (s, replicate (length env) (ReqSleep 100) ++ rqs)).
Proof.
  induction env as [|[r w1] env IH]; intros w Hmiss.
  - simpl. by destruct (drive (kont None w) rest).
  - unfold misses, checked in Hmiss. simpl in Hmiss.
    apply Forall_cons in Hmiss as [Hw Hrest]. apply find_producer_none in Hw.
    cbn [length]. rewrite discovery_loop_S, Hw. cbn [bindS app drive].
    rewrite (IH w1 Hrest). cbn [wake replicate app].
    by destruct (drive (kont None (wake w1 env)) rest).
Qed.

Lemma drive_discovery_hit {B} room (kont : option nat -> M B) rest p env :
  forall n w,
    (length env < n)%nat ->
    misses room (checked (length env) w env) ->
    find_producer room (wake w env) = Some p ->
    drive (bindS (discovery_loop n room w) kont) (env ++ rest) =
      (let '(s, rqs) := drive (kont (Some p) (wake w env)) rest in
       (s, replicate (length env) (ReqSleep 100) ++ rqs)).
Proof.
  induction env as [|[r w1] env IH]; intros n w Hn Hmiss Hhit.
  - destruct n as [|n]; [simpl in Hn; lia|]. simpl in *.
    rewrite (discovery_found _ _ _ p) by done. simpl.
    by destruct (drive (kont (Some p) w) rest).
  - destruct n as [|n]; [simpl in Hn; lia|].
    unfold misses, checked in Hmiss. simpl in Hmiss, Hhit, Hn.
    apply Forall_cons in Hmiss as [Hw Hrest]. apply find_producer_none in Hw.
    rewrite discovery_loop_S, Hw. cbn [bindS app drive].
    rewrite (IH n w1 ltac:(lia) Hrest Hhit). cbn [length wake replicate app].
    by destruct (drive (kont (Some p) (wake w1 env)) rest).
Qed.

(** C4: the discovery of a consume request.  When the room holds a
    video producer that is not closed at the first check, the handler
    goes on at once, without sleeping, to create the consumer for the
    first such producer in the order of the room's map.  Otherwise it
    checks again after each 100 ms sleep: as soon as a check (one of the
    first 50) finds the room with an open video producer it goes on with
    the first of them; when in all 50 checks the room has held none it
    has slept 50 times, sends the error "No producer available", and
    finishes, leaving the state (the session included) as it found
    it. *)
Theorem consume_discovery (sid : nat) (q : ClientMsg) (w : World)
    (t : WebRtcTransport) (d : nat) :
  action q = VStr "consume" ->
  session_transport sid w = Some t ->
  JsMap.get (VStr "default") (rooms w) = Some d ->
  (forall p0,
     p0 ∈ room_producers d w -> open_video w p0 ->
     exists p pobj k,
       first_with (open_video w) (room_producers d w) p /\
       producer_heap w !! p = Some pobj /\
       on_message sid q w =
         Susp (ReqConsume (t_id t) (p_id pobj) (msg_rtpCapabilities q)) w k) /\
  (forall env,
     length env = 50%nat ->
     misses d (checked 50 w env) ->
     drive (on_message sid q w) env =
       (Done tt (no_producer sid (wake w env)),
        replicate 50 (ReqSleep 100))) /\
  (forall env p0 t',
     (length env < 50)%nat ->
     misses d (checked (length env) w env) ->
     p0 ∈ room_producers d (wake w env) -> open_video (wake w env) p0 ->
     session_transport sid (wake w env) = Some t' ->
     exists p pobj k,
       first_with (open_video (wake w env))
         (room_producers d (wake w env)) p /\
       producer_heap (wake w env) !! p = Some pobj /\
       drive (on_message sid q w) env =
         (Susp (ReqConsume (t_id t') (p_id pobj) (msg_rtpCapabilities q))
            (wake w env) k,
          replicate (length env) (ReqSleep 100))).
Proof.
  intros Hq Ht Hd.
  assert (Hstart : exists kont : option nat -> M unit,
    on_message sid q w = bindS (discovery_loop 50 d w) kont /\
    (forall w', kont None w' = Done tt (no_producer sid w')) /\
    (forall p pobj t' w',
       producer_heap w' !! p = Some pobj ->
       session_transport sid w' = Some t' ->
       exists k, kont (Some p) w' =
         Susp (ReqConsume (t_id t') (p_id pobj) (msg_rtpCapabilities q)) w' k)).
  { handler_steps. rewrite Hq, Ht. simpl.
    rewrite (getOrCreateRoom_present _ d) by done. simpl.
    eexists. split; [reflexivity|]. split; [reflexivity|].
    intros p pobj t' w' Hp Ht'. simpl.
    unfold producer_at. rewrite (deref_Some _ _ pobj) by done. simpl.
    unfold read_transport. rewrite Ht'. simpl. eauto. }
  destruct Hstart as (kont & Hrun & Hnone & Hsome).
  split; [|split].
  - intros p0 Hin Hopen.
    destruct (first_with_exists _ _ (is_video_open_spec w) _ p0 Hin Hopen)
      as [p Hp].
    pose proof Hp as (_ & _ & _ & _ & pobj & Hpo & _).
    apply find_producer_first in Hp as Hfind.
    destruct (Hsome p pobj t w Hpo Ht) as [k Hk].
    exists p, pobj, k. repeat split; try done.
    rewrite Hrun, (discovery_found _ _ _ p) by done. exact Hk.
  - intros env Hlen Hmiss. rewrite Hrun.
    pose proof (drive_discovery_miss d kont [] env w) as Hdrive.
    rewrite app_nil_r, Hlen in Hdrive. rewrite (Hdrive Hmiss), Hnone.
    cbn [drive]. by rewrite app_nil_r.
  - intros env p0 t' Hlen Hmiss Hin Hopen Ht'.
    destruct (first_with_exists _ _ (is_video_open_spec (wake w env)) _ p0
                Hin Hopen) as [p Hp].
    pose proof Hp as (_ & _ & _ & _ & pobj & Hpo & _).
    apply find_producer_first in Hp as Hhit.
    pose proof (drive_discovery_hit d kont [] p env 50%nat w) as Hdrive.
    rewrite app_nil_r in Hdrive.
    destruct (Hsome p pobj t' (wake w env) Hpo Ht') as [k Hk].
    exists p, pobj, k. repeat split; try done.
    rewrite Hrun, (Hdrive Hlen Hmiss Hhit), Hk.
    cbn [drive]. by rewrite app_nil_r.
Qed.

Lemma studio_stale_misses : misses 0 [studio_stale].
Proof.
  repeat constructor; intros (pobj & Hp & _ & Hc);
    injection Hp as <-; discriminate Hc.
Qed.

Lemma consume_discovery_witness :
  (exists k,
     on_message 0 (msg "consume") studio_mixed
       = Susp (ReqConsume "t-1" "p-1" VUndefined) studio_mixed k) /\
  drive (on_message 0 (msg "consume") studio_stale)
        (replicate 50 (RspOk, studio_stale))
    = (Done tt (no_producer 0 studio_stale), replicate 50 (ReqSleep 100)) /\
  (exists k,
     drive (on_message 0 (msg "consume") studio_stale)
           [(RspOk, studio_stale); (RspOk, studio_mixed)]
       = (Susp (ReqConsume "t-1" "p-1" VUndefined) studio_mixed k,
          [ReqSleep 100; ReqSleep 100])).
Proof.
  assert (Hopen : open_video studio_mixed 2) by (by exists (producer_P "p-1")).
  assert (Hfirst : forall p pobj,
            first_with (open_video studio_mixed)
              (room_producers 0 studio_mixed) p ->
            producer_heap studio_mixed !! p = Some pobj ->
            pobj = producer_P "p-1").
  { intros p pobj Hp Hpo. apply find_producer_first in Hp.
    injection Hp as <-. by injection Hpo as <-. }
  assert (Hmiss := studio_stale_misses).
  apply Forall_cons in Hmiss as [Hmiss _].
  split; [|split].
  - destruct (consume_discovery 0 (msg "consume") studio_mixed transport_X 0
                eq_refl eq_refl eq_refl) as (H & _ & _).
    destruct (H 2%nat) as (p & pobj & k & Hp & Hpo & Hk); [|exact Hopen|].
    { apply list_elem_of_In. simpl. auto 10. }
    rewrite (Hfirst p pobj Hp Hpo) in Hk. by exists k.
  - destruct (consume_discovery 0 (msg "consume") studio_stale transport_X 0
                eq_refl eq_refl eq_refl) as (_ & H & _).
    apply (H (replicate 50 (RspOk, studio_stale))); [reflexivity|].
    unfold misses, checked. simpl. repeat (constructor; [exact Hmiss|]).
    constructor.
  - destruct (consume_discovery 0 (msg "consume") studio_stale transport_X 0
                eq_refl eq_refl eq_refl) as (_ & _ & H).
    destruct (H [(RspOk, studio_stale); (RspOk, studio_mixed)] 2%nat
                transport_X) as (p & pobj & k & Hp & Hpo & Hk);
      [simpl; lia | | | exact Hopen | reflexivity |].
    { unfold misses, checked. simpl. repeat (constructor; [exact Hmiss|]).
      constructor. }
    { apply list_elem_of_In. simpl. auto 10. }
    simpl in Hp, Hpo, Hk. rewrite (Hfirst p pobj Hp Hpo) in Hk. by exists k.
Defined.

(** ** Starting a receiver *)

(** C3, as the code has it: the receiver is ready, and
    [createRtpReceiver] returns, exactly when both binds have succeeded.
    Whatever the two outcomes are, each socket is then bound exactly
    when its own bind succeeded: nothing is released. *)
Theorem receiver_ready_iff_both_bound (roomId : JsVal) (options : Options)
    (w : World) (d : nat) (r : Room) :
  JsMap.get roomId (rooms w) = Some d ->
  room_heap w !! d = Some r ->
  exists k1,
    createRtpReceiver roomId options w
      = Susp (ReqCreatePlainTransport (r_id (router r))) w k1 /\
    forall tr w1, exists k2,
      let rid := length (receivers w1) in
      let p := default RTP_PORT (o_listenPort options) in
      k1 (RspPlainTransport tr) w1
        = Susp (ReqBind p (p + 1))
            (with_receivers (fun l => l ++ [new_receiver d tr options]) w1) k2 /\
      forall rtp_err rtcp_err w2 cur,
        receivers w2 !! rid = Some cur ->
        let s := k2 (RspBinds rtp_err rtcp_err) w2 in
        state_of s = bound_as rid rtp_err rtcp_err w2 /\
        receivers (state_of s) !! rid
          = Some (set_bound (bool_decide (rtp_err = None))
                            (bool_decide (rtcp_err = None)) cur) /\
        (rtp_err = None -> rtcp_err = None ->
         s = Done (producer cur, tr) (bound_as rid rtp_err rtcp_err w2)) /\
        (forall v w3, s = Done v w3 -> rtp_err = None /\ rtcp_err = None).
Proof.
  intros Hd Hr. unfold createRtpReceiver, bind. simpl.
  rewrite (getOrCreateRoom_present _ d) by done. simpl.
  unfold room_at. rewrite (deref_Some _ _ r) by done. simpl.
  eexists. split; [reflexivity|]. intros tr w1. simpl.
  eexists. split; [reflexivity|]. intros e1 e2 w2 cur Hcur.
  assert (Hb : receivers (bound_as (length (receivers w1)) e1 e2 w2)
                 !! length (receivers w1)
               = Some (set_bound (bool_decide (e1 = None))
                                 (bool_decide (e2 = None)) cur)).
  { simpl. rewrite upd_lookup, decide_True by done. by rewrite Hcur. }
  destruct e1 as [e|]; [|destruct e2 as [e|]]; simpl.
  - by repeat split.
  - by repeat split.
  - unfold receiver_at, deref. simpl in *. rewrite Hb. simpl.
    by repeat split.
Qed.

Lemma receiver_ready_iff_both_bound_witness :
  exists k1 k2,
    createRtpReceiver (VStr "default") no_options studio
      = Susp (ReqCreatePlainTransport "router-A") studio k1 /\
    k1 (RspPlainTransport plain_T) studio
      = Susp (ReqBind 5004 5005)
          (with_receivers
             (fun l => l ++ [new_receiver 0 plain_T no_options]) studio) k2.
Proof.
  destruct (receiver_ready_iff_both_bound (VStr "default") no_options studio
              0 room_D eq_refl eq_refl) as (k1 & Hk1 & H).
  destruct (H plain_T studio) as (k2 & Hk2 & _).
  by exists k1, k2.
Defined.

(** C3, counterexample: the RTP bind succeeds and the RTCP bind fails.
    The RTP socket is still bound afterwards, next to an RTCP socket
    that is not, and no failure has been reported. *)
Lemma rtp_socket_left_bound :
  let s := alone (createRtpReceiver (VStr "default") no_options
                    (with_workers (fun _ => [1%nat]) empty_world))
                 [RspRouter router_A; RspPlainTransport plain_T;
                  RspBinds None (Some "EADDRINUSE")] in
  (rtpSocket_bound <$> receivers (state_of s) !! 0%nat) = Some true /\
  (rtcpSocket_bound <$> receivers (state_of s) !! 0%nat) = Some false /\
  failure s = None.
Proof. vm_compute. done. Qed.

(** ** Two routers for one room *)

(** The check-then-create race of [getOrCreateRoom], for any key: two
    calls that both start before the first router is there each create
    a router, get different rooms, and the second registration
    replaces the first. *)
Lemma getOrCreateRoom_race key wk w A B :
  JsMap.get key (rooms w) = None -> workers w !! 0%nat = Some wk ->
  exists k1 k2 w1 w2,
    getOrCreateRoom key w = Susp (ReqCreateRouter wk mediaCodecs) w k1 /\
    getOrCreateRoom key w = Susp (ReqCreateRouter wk mediaCodecs) w k2 /\
    k1 (RspRouter A) w = Done (length (room_heap w)) w1 /\
    k2 (RspRouter B) w1 = Done (S (length (room_heap w))) w2 /\
    room_heap w2 !! length (room_heap w) = Some (Build_Room A [] [] []) /\
    room_heap w2 !! S (length (room_heap w)) = Some (Build_Room B [] [] []) /\
    JsMap.get key (rooms w2) = Some (S (length (room_heap w))).
Proof.
  intros Hnone Hwk.
  destruct (getOrCreateRoom_absent key wk w Hnone Hwk) as (k & Hk & Hres).
  exists k, k. do 2 eexists. repeat split; try exact Hk.
  - apply Hres.
  - rewrite Hres. simpl. rewrite length_app. simpl.
    by replace (length (room_heap w) + 1)%nat
         with (S (length (room_heap w))) by lia.
  - simpl. rewrite lookup_app_l by (rewrite length_app; simpl; lia).
    by rewrite list_lookup_middle.
  - simpl. rewrite (list_lookup_middle _ []); [done|].
    rewrite length_app. simpl. lia.
  - simpl. by rewrite JsMap_get_set_eq.
Qed.

(** C1 fails on the code: two sessions join the new room "lobby", the
    second while the router of the first is still being created.  Two
    routers are created; each session goes on with its own (the two
    pending transport requests name different routers), and the
    registry keeps the room of the second only. *)
Theorem two_joins_two_routers :
  let s := run [Settled 0 (RspWorker 1); Connection; Connection;
                Message 0 (join_msg (VStr "lobby"));
                Message 1 (join_msg (VStr "lobby"));
                Settled 1 (RspRouter router_A);
                Settled 1 (RspRouter router_B)] boot in
  map awaiting (pending s)
    = [ReqCreateRouter 1 mediaCodecs;
       ReqCreateWebRtcTransport "router-A";
       ReqCreateWebRtcTransport "router-B"] /\
  map router (room_heap (world s)) = [router_A; router_B] /\
  rooms (world s) = [(VStr "lobby", 1%nat)].
Proof. vm_compute. done. Qed.

(** ** A second producer *)

(** C2 fails on the code: the first datagram of a receiver carries the
    SSRC 0.  The variable [ssrc] then holds [0], which [!ssrc] takes for
    "not yet detected": the next datagram creates a second producer. *)
Theorem ssrc_zero_second_producer :
  let s := run [Settled 0 (RspWorker 1); Settled 0 (RspRouter router_A);
                Settled 0 (RspPlainTransport plain_T);
                Settled 0 (RspBinds None None);
                Rtp 0 header_ssrc0; Settled 0 (RspProducer (producer_P "p1"));
                Rtp 0 header_ssrc0; Settled 0 (RspProducer (producer_P "p2"))]
             boot in
  producer_heap (world s) = [producer_P "p1"; producer_P "p2"] /\
  (producers <$> room_heap (world s) !! 0%nat)
    = Some [(VStr "p1", 0%nat); (VNum 0, 1%nat); (VStr "p2", 1%nat)] /\
  (producer <$> receivers (world s) !! 0%nat) = Some (Some 1%nat).
Proof. vm_compute. done. Qed.

(** ** Guarantees over every run *)

Section Guarantee.
Context (R : World -> World -> Prop) `{!PreOrder R}.

Local Lemma R_refl w : R w w.
Proof. reflexivity. Qed.

Local Lemma R_trans a b c : R a b -> R b c -> R a c.
Proof. intros. by etransitivity. Qed.

Lemma seg_from {A} w0 w1 (s : Step A) : R w0 w1 -> seg R w1 s -> seg R w0 s.
Proof.
  destruct s as [a w|e w|rq w k|w]; simpl; intros H.
  - by apply R_trans.
  - by apply R_trans.
  - intros [? ?]. split; [by eapply R_trans | done].
  - by apply R_trans.
Qed.

Lemma seg_bindS {A B} (f : A -> M B) :
  (forall a, respects R (f a)) ->
  forall (s : Step A) w0, seg R w0 s -> seg R w0 (bindS s f).
Proof.
  intros Hf. induction s as [a w|e w|rq w k IH|w]; intros w0; simpl.
  - intros H. eapply seg_from; [exact H | apply Hf].
  - done.
  - intros [H Hk]. split; [done|]. intros r w'. apply IH, Hk.
  - done.
Qed.

Lemma respects_bind {A B} (m : M A) (f : A -> M B) :
  respects R m -> (forall a, respects R (f a)) -> respects R (bind m f).
Proof. intros Hm Hf w. unfold bind. by apply seg_bindS. Qed.

Lemma respects_ret {A} (a : A) : respects R (ret a).
Proof. intros w. apply R_refl. Qed.

Lemma respects_throw {A} e : respects R (@throw A e).
Proof. intros w. apply R_refl. Qed.

Lemma respects_never {A} : respects R (@never A).
Proof. intros w. apply R_refl. Qed.

Lemma respects_await rq : respects R (await rq).
Proof. intros w. simpl. split; [apply R_refl|]. intros r w'. apply R_refl. Qed.

Lemma respects_gets {A} (f : World -> A) : respects R (gets f).
Proof. intros w. apply R_refl. Qed.

Lemma respects_modify f : guar R f -> respects R (modify f).
Proof. intros H w. apply H. Qed.

Lemma respects_deref {A} (heap : World -> list A) ref :
  respects R (deref heap ref).
Proof. intros w. unfold deref. destruct (heap w !! ref); apply R_refl. Qed.

Lemma respects_read_transport sid : respects R (read_transport sid).
Proof.
  intros w. unfold read_transport.
  destruct (session_transport sid w); apply R_refl.
Qed.

Lemma respects_when (b : bool) m : respects R m -> respects R (when b m).
Proof. destruct b; [done | intros _; apply respects_ret]. Qed.

Lemma respects_discovery_loop n room : respects R (discovery_loop n room).
Proof.
  induction n as [|n IH]; [apply respects_ret|].
  unfold discovery_loop; fold discovery_loop.
  apply respects_bind; [apply respects_gets|]. intros [p|].
  - apply respects_ret.
  - apply respects_bind; [|done]. unfold sleep.
    apply respects_bind; [apply respects_await | intros; apply respects_ret].
Qed.

Lemma settle_respects s pool w0 :
  seg R w0 s -> pool_respects R pool ->
  R w0 (world (settle s pool)) /\ pool_respects R (pending (settle s pool)).
Proof.
  intros Hs Hp. destruct s as [a w|e w|rq w k|w]; simpl in *; try done.
  destruct Hs as [H Hk]. split; [done|].
  apply Forall_app. split; [done|]. by constructor.
Qed.

Hypothesis on_message_respects : forall sid data, respects R (on_message sid data).
Hypothesis on_rtp_respects : forall rid c p, respects R (on_rtp rid c p).
Hypothesis on_rtcp_respects : forall rid c p, respects R (on_rtcp rid c p).
Hypothesis connection_guar : guar R (with_sessions (fun l => l ++ [None])).

Lemma deliver_respects e s :
  pool_respects R (pending s) ->
  R (world s) (world (deliver e s)) /\
  pool_respects R (pending (deliver e s)).
Proof.
  intros Hp. destruct e as [|sid data|rid p|rid p|i r]; simpl.
  - split; [apply connection_guar | done].
  - destruct (sessions (world s) !! sid); [|by split].
    apply settle_respects; [apply on_message_respects | done].
  - destruct (receivers (world s) !! rid) as [c|]; [|by split].
    destruct (rtpSocket_bound c); [|by split].
    apply settle_respects; [apply on_rtp_respects | done].
  - destruct (receivers (world s) !! rid) as [c|]; [|by split].
    destruct (rtcpSocket_bound c); [|by split].
    apply settle_respects; [apply on_rtcp_respects | done].
  - destruct (pending s !! i) as [t|] eqn:Ht; [|by split].
    apply settle_respects.
    + unfold pool_respects in Hp. rewrite Forall_lookup in Hp.
      by apply (Hp i t).
    + by apply Forall_delete.
Qed.

Lemma run_respects evs : forall s,
  pool_respects R (pending s) ->
  R (world s) (world (run evs s)) /\ pool_respects R (pending (run evs s)).
Proof.
  induction evs as [|e evs IH]; intros s Hp; simpl.
  - by split.
  - destruct (deliver_respects e s Hp) as [H1 Hp1].
    destruct (IH _ Hp1) as [H2 Hp2]. split; [|done]. by etransitivity.
Qed.

Hypothesis main_respects : respects R main.

Lemma boot_respects : pool_respects R (pending boot).
Proof.
  unfold boot.
  destruct (settle_respects (main empty_world) [] empty_world) as [_ H];
    [apply main_respects | constructor | exact H].
Qed.

Lemma reachable_respects evs evs' :
  R (world (run evs boot)) (world (run evs' (run evs boot))).
Proof.
  apply run_respects. apply run_respects. apply boot_respects.
Qed.
End Guarantee.

(** Walking a handler down to its state updates. *)
Ltac walk :=
  repeat match goal with
  | |- respects _ (bind _ _) => apply respects_bind; [exact _ | | intros ?]
  | |- respects _ (ret _) => apply respects_ret; exact _
  | |- respects _ (throw _) => apply respects_throw; exact _
  | |- respects _ bad_reply => apply respects_throw; exact _
  | |- respects _ never => apply respects_never; exact _
  | |- respects _ (await _) => apply respects_await; exact _
  | |- respects _ (gets _) => apply respects_gets; exact _
  | |- respects _ (modify _) => apply respects_modify
  | |- respects _ (deref _ _) => apply respects_deref; exact _
  | |- respects _ (read_transport _) => apply respects_read_transport; exact _
  | |- respects _ (when _ _) => apply respects_when; [exact _ |]
  | |- respects _ (discovery_loop _ _) =>
      apply respects_discovery_loop; exact _
  | |- respects _ (if ?b then _ else _) => destruct b
  | |- respects _ (match ?x with _ => _ end) => destruct x
  end.

Ltac open_handlers :=
  unfold main, initWorkers; cbn [initWorkers_loop];
  unfold on_message, on_rtp, on_rtcp, createRtpReceiver, getOrCreateRoom,
    createWorker, createRouter, createPlainTransport,
    createWebRtcTransport, transport_connect, transport_produce,
    transport_consume, producer_resume, consumer_resume, sleep,
    room_at, producer_at, consumer_at, receiver_at,
    upd_room, upd_producer, upd_consumer, upd_receiver,
    set_transport, ws_send, udp_send.

(** ** Transports are never removed *)

#[global] Instance keeps_transports_preorder : PreOrder keeps_transports.
Proof.
  split.
  - intros w d r tid Hr Hh. eauto.
  - intros a b c Hab Hbc d r tid Hr Hh.
    destruct (Hab d r tid Hr Hh) as (r' & Hr' & Hh'). eauto.
Qed.

Lemma keeps_frame f :
  (forall w, room_heap (f w) = room_heap w) -> guar keeps_transports f.
Proof. intros Hf w d r tid Hr Hh. rewrite Hf. eauto. Qed.

Lemma keeps_new_room room :
  guar keeps_transports (with_room_heap (fun h => h ++ [room])).
Proof.
  intros w d r tid Hr Hh. simpl. exists r. split; [|done].
  rewrite lookup_app_l; [done|]. by eapply lookup_lt_Some.
Qed.

Lemma keeps_upd_room d g :
  (forall r tid, JsMap.has tid (transports r) = true ->
                 JsMap.has tid (transports (g r)) = true) ->
  guar keeps_transports (with_room_heap (upd d g)).
Proof.
  intros Hg w d' r tid Hr Hh. simpl. rewrite upd_lookup.
  destruct (decide (d = d')) as [->|Hne]; [|eauto].
  rewrite Hr. simpl. eauto.
Qed.

Ltac solve_keeps :=
  first [ apply keeps_frame; reflexivity
        | apply keeps_new_room
        | apply keeps_upd_room; intros; simpl; auto using JsMap_has_set_mono ].

Lemma on_message_keeps sid data : respects keeps_transports (on_message sid data).
Proof. open_handlers. walk; solve_keeps. Qed.

Lemma on_rtp_keeps rid c p : respects keeps_transports (on_rtp rid c p).
Proof. open_handlers. walk; solve_keeps. Qed.

Lemma on_rtcp_keeps rid c p : respects keeps_transports (on_rtcp rid c p).
Proof. open_handlers. walk; solve_keeps. Qed.

Lemma main_keeps : respects keeps_transports main.
Proof. open_handlers. walk; solve_keeps. Qed.

(** C8: a join on a session that already has a transport asks for a new
    one; when it arrives it replaces the session's transport and is
    added to the room's map, where every entry that was there stays.
    No step of the program ever removes an entry from a room's transport
    map: a key present in some reachable state is present in every later
    one. *)
Theorem transports_only_accumulate (sid : nat) (data : ClientMsg) (w : World)
    (t1 : WebRtcTransport) (d : nat) (r : Room) :
  action data = VStr "join" ->
  session_transport sid w = Some t1 ->
  JsMap.get (js_or (roomId data) (VStr "default")) (rooms w) = Some d ->
  room_heap w !! d = Some r ->
  (exists k,
     on_message sid data w
       = Susp (ReqCreateWebRtcTransport (r_id (router r))) w k /\
     forall t2 w' r',
       k (RspWebRtcTransport t2) w' = Done tt (joined sid d t2 w') /\
       ((sid < length (sessions w'))%nat ->
        session_transport sid (joined sid d t2 w') = Some t2) /\
       (room_heap w' !! d = Some r' ->
        exists r'',
          room_heap (joined sid d t2 w') !! d = Some r'' /\
          JsMap.get (VStr (t_id t2)) (transports r'') = Some t2 /\
          (forall tid, JsMap.has tid (transports r') = true ->
                       JsMap.has tid (transports r'') = true) /\
          (forall tid t, tid <> VStr (t_id t2) ->
                         JsMap.get tid (transports r') = Some t ->
                         JsMap.get tid (transports r'') = Some t))) /\
  (forall evs evs',
     keeps_transports (world (run evs boot)) (world (run evs' (run evs boot)))).
Proof.
  intros Ha Ht Hd Hr. split.
  - handler_steps. rewrite Ha. simpl.
    rewrite (getOrCreateRoom_present _ d) by done. simpl.
    unfold room_at. rewrite (deref_Some _ _ r) by done. simpl.
    eexists. split; [reflexivity|]. intros t2 w' r'.
    split; [reflexivity|]. split.
    + intros Hsid. unfold session_transport. simpl.
      by rewrite list_lookup_insert_eq.
    + intros Hr'. exists (with_transports (JsMap.set (VStr (t_id t2)) t2) r').
      simpl. rewrite upd_lookup, decide_True by done. rewrite Hr'. simpl.
      split; [done|]. split; [apply JsMap_get_set_eq|]. split.
      * intros tid. apply JsMap_has_set_mono.
      * intros tid t Hne Hg. rewrite JsMap_get_set_ne; [done|congruence].
  - intros evs evs'.
    apply (reachable_respects keeps_transports);
      auto using on_message_keeps, on_rtp_keeps, on_rtcp_keeps, main_keeps.
    by apply keeps_frame.
Qed.

Lemma transports_only_accumulate_witness :
  session_transport 0 studio = Some transport_X /\
  exists k, on_message 0 (join_msg VNull) studio
            = Susp (ReqCreateWebRtcTransport "router-A") studio k.
Proof.
  split; [reflexivity|].
  destruct (transports_only_accumulate 0 (join_msg VNull) studio transport_X
              0 room_D eq_refl eq_refl eq_refl eq_refl) as [(k & Hk & _) _].
  by exists k.
Defined.

(** ** Forwarding *)

#[global] Instance steady_preorder : PreOrder steady.
Proof.
  split.
  - intros w. by split.
  - intros a b c [H1 H2] [H3 H4]. split; eauto.
Qed.

Lemma steady_receivers f :
  (forall w, outbox (f w) = outbox w) ->
  (forall w rid, has_producer rid w -> has_producer rid (f w)) ->
  guar steady f.
Proof.
  intros Ho Hp w. split; [apply Hp|].
  intros Hinv rid. rewrite Ho. intros Hs. apply Hp, Hinv, Hs.
Qed.

Lemma steady_frame f :
  (forall w, receivers (f w) = receivers w) ->
  (forall w, outbox (f w) = outbox w) ->
  guar steady f.
Proof.
  intros Hr Ho. apply steady_receivers; [done|].
  intros w rid (cur & p & Hc & Hp). exists cur, p. by rewrite Hr.
Qed.

Lemma has_producer_upd rid g :
  (forall r p, producer r = Some p -> exists p', producer (g r) = Some p') ->
  forall w rid', has_producer rid' w ->
                 has_producer rid' (with_receivers (upd rid g) w).
Proof.
  intros Hg w rid' (cur & p & Hc & Hp). unfold has_producer. simpl.
  rewrite upd_lookup. destruct (decide (rid = rid')) as [->|]; [|eauto].
  rewrite Hc. simpl. destruct (Hg cur p Hp) as [p' Hp']. eauto.
Qed.

Lemma has_producer_new rv w rid :
  has_producer rid w ->
  has_producer rid (with_receivers (fun l => l ++ [rv]) w).
Proof.
  intros (cur & p & Hc & Hp). exists cur, p. simpl. split; [|done].
  rewrite lookup_app_l; [done|]. by eapply lookup_lt_Some.
Qed.

Lemma steady_send x :
  (forall rid packet port host, x <> UdpSend (rtpForward rid) packet port host) ->
  guar steady (with_outbox (fun o => o ++ [x])).
Proof.
  intros Hx w. split; [done|].
  intros Hinv rid (packet & port & host & Hin). simpl in Hin.
  apply elem_of_app in Hin as [Hin|Hin].
  - apply (Hinv rid). by exists packet, port, host.
  - apply list_elem_of_singleton in Hin. symmetry in Hin. by apply Hx in Hin.
Qed.

Lemma steady_forward rid packet port host w :
  has_producer rid w ->
  steady w (with_outbox (fun o => o ++ [UdpSend (rtpForward rid) packet port host]) w).
Proof.
  intros Hp. split; [done|].
  intros Hinv rid' (packet' & port' & host' & Hin). simpl in Hin.
  apply elem_of_app in Hin as [Hin|Hin].
  - apply (Hinv rid'). by exists packet', port', host'.
  - apply list_elem_of_singleton in Hin. by simplify_eq.
Qed.

Ltac solve_steady :=
  first [ apply steady_frame; reflexivity
        | apply steady_send; discriminate
        | apply steady_receivers;
            [ reflexivity
            | first [ apply has_producer_upd; intros; simpl; eauto
                    | intros; by apply has_producer_new ] ] ].

Lemma on_message_steady sid data : respects steady (on_message sid data).
Proof. open_handlers. walk; solve_steady. Qed.

Lemma on_rtcp_steady rid c p : respects steady (on_rtcp rid c p).
Proof. open_handlers. walk; solve_steady. Qed.

Lemma main_steady : respects steady main.
Proof. open_handlers. walk; solve_steady. Qed.

Lemma on_rtp_steady rid c packet : respects steady (on_rtp rid c packet).
Proof.
  open_handlers.
  apply respects_bind; [exact _ | walk; solve_steady | intros _].
  apply respects_bind; [exact _ | walk | intros cur].
  apply respects_bind; [exact _ | walk; solve_steady | intros _].
  intros w. unfold bind, deref.
  destruct (receivers w !! rid) as [cur'|] eqn:Hcur; simpl; [|reflexivity].
  destruct (producer cur') as [p|] eqn:Hp; simpl; [|reflexivity].
  destruct (negb (rtpPort c =? 0)); simpl; [|reflexivity].
  apply steady_forward. by exists cur', p.
Qed.

Lemma readUInt32BE_Some packet :
  (12 <= length packet)%nat -> exists v, readUInt32BE 8 packet = Some v.
Proof.
  intros H. do 12 (destruct packet as [|? packet]; [simpl in H; lia|]).
  unfold readUInt32BE. simpl. eauto.
Qed.

Lemma ends_forwarding_after rid (c : Receiver) packet (s : Step unit) :
  rtpPort c <> 0 ->
  leads_to_producer rid s ->
  ends_forwarding rid (UdpSend (rtpForward rid) packet (rtpPort c) "127.0.0.1")
    (bindS s (fun _ =>
       cur <- receiver_at rid;;
       match producer cur with
       | Some _ =>
           when (negb (rtpPort c =? 0))
             (udp_send (rtpForward rid) packet (rtpPort c) "127.0.0.1")
       | None => ret tt
       end)).
Proof.
  intros Hport. apply Z.eqb_neq in Hport.
  induction s as [[] w|e w|rq w k IH|w]; simpl.
  - intros (cur & p & Hcur & Hp). unfold bind, receiver_at, deref.
    rewrite Hcur. simpl. rewrite Hp, Hport. simpl. apply last_snoc.
  - done.
  - intros Hk r w' Hok Hrely. apply IH. by apply Hk.
  - done.
Qed.

#[local] Arguments Nat.leb : simpl never.
#[local] Arguments readUInt32BE : simpl never.

Lemma append_lookup_new {A} (l : list A) x : (l ++ [x]) !! length l = Some x.
Proof. by rewrite list_lookup_middle. Qed.

Lemma on_rtp_ends_forwarding rid c packet w :
  rtpPort c <> 0 ->
  has_producer rid w ->
  ends_forwarding rid (UdpSend (rtpForward rid) packet (rtpPort c) "127.0.0.1")
    (on_rtp rid c packet w).
Proof.
  intros Hport (cur & p & Hcur & Hp).
  unfold on_rtp. unfold bind at 1 2. unfold upd_receiver, modify, receiver_at, deref.
  cbn [bindS]. simpl receivers.
  rewrite upd_lookup, decide_True, Hcur by done. cbn [fmap option_fmap option_map bindS].
  unfold bind at 1. apply ends_forwarding_after; [done|].
  assert (Hhas : forall g, (forall r q, producer r = Some q ->
                              exists q', producer (g r) = Some q') ->
            forall w0, has_producer rid w0 ->
                       has_producer rid (with_receivers (upd rid g) w0)).
  { intros g Hg w0. by apply has_producer_upd. }
  assert (H1 : has_producer rid (with_receivers (upd rid incr_packetCount) w)).
  { apply Hhas; [simpl; eauto|]. by exists cur, p. }
  destruct (negb (truthy (ssrc (incr_packetCount cur)))
            && (12 <=? length packet)%nat) eqn:Hguard; [|exact H1].
  apply andb_true_iff in Hguard as [_ Hlen]. apply Nat.leb_le in Hlen.
  destruct (readUInt32BE_Some packet Hlen) as [v ->].
  unfold transport_produce, bind, await, upd_room, modify, gets, ret,
    producer_at, producer_resume, upd_producer, deref, when.
  cbn [bindS leads_to_producer].
  intros r w' Hok Hrely.
  destruct r as [| | | |pobj| | | |]; try (by destruct Hok).
  destruct Hrely as (cur' & p' & Hcur' & Hp').
  { apply Hhas; [simpl; eauto | exact H1]. }
  cbn [bindS]. simpl producer_heap. rewrite append_lookup_new.
  cbn [bindS]. simpl receivers. rewrite upd_lookup, decide_True, Hcur' by done.
  cbn [fmap option_fmap option_map bindS]. simpl producer_heap.
  rewrite append_lookup_new. cbn [bindS].
  set (w2 := with_room_heap _ (with_room_heap _ _)).
  assert (H2 : has_producer rid w2).
  { exists (set_producer (Some (length (producer_heap w'))) cur'),
      (length (producer_heap w')).
    split; [|done]. subst w2. simpl.
    by rewrite upd_lookup, decide_True, Hcur'. }
  destruct (p_paused pobj); [|exact H2].
  unfold bind, await, producer_at, deref, modify.
  replace (producer_heap w2 !! length (producer_heap w')) with (Some pobj)
    by (subst w2; simpl; by rewrite append_lookup_new).
  cbn [bindS leads_to_producer].
  intros r w3 Hok3 Hrely3.
  destruct r; try (by destruct Hok3).
  destruct (Hrely3 H2) as (cur3 & p3 & Hcur3 & Hp3).
  simpl. by exists cur3, p3.
Qed.

Lemma on_rtp_detected rid c packet w cur p :
  rtpPort c <> 0 ->
  receivers w !! rid = Some cur ->
  producer cur = Some p ->
  (length packet < 12)%nat \/ truthy (ssrc cur) = true ->
  on_rtp rid c packet w =
    Done tt
      (with_outbox
         (fun o => o ++ [UdpSend (rtpForward rid) packet (rtpPort c) "127.0.0.1"])
         (with_receivers (upd rid incr_packetCount) w)).
Proof.
  intros Hport Hcur Hp Hskip. apply Z.eqb_neq in Hport.
  unfold on_rtp, bind, upd_receiver, modify, receiver_at, deref. simpl.
  rewrite upd_lookup, decide_True, Hcur by done. simpl.
  replace (negb (truthy (ssrc cur)) && (12 <=? length packet)%nat) with false.
  - simpl. rewrite upd_lookup, decide_True, Hcur by done. simpl.
    by rewrite Hp, Hport.
  - symmetry. apply andb_false_iff. destruct Hskip as [Hshort | ->]; [right|by left].
    apply Nat.leb_gt. exact Hshort.
Qed.

(** Once the stored SSRC is truthy, a datagram starts no detection: the
    handler finishes at once, without any request to the engine, and no
    producer is created. *)
Lemma on_rtp_no_second_detection rid c packet w cur :
  receivers w !! rid = Some cur ->
  truthy (ssrc cur) = true ->
  exists w', on_rtp rid c packet w = Done tt w' /\
             producer_heap w' = producer_heap w /\
             room_heap w' = room_heap w.
Proof.
  intros Hcur Hssrc.
  unfold on_rtp, bind, upd_receiver, modify, receiver_at, deref. simpl.
  rewrite upd_lookup, decide_True, Hcur by done. simpl. rewrite Hssrc. simpl.
  rewrite upd_lookup, decide_True, Hcur by done. simpl.
  destruct (producer cur); [destruct (negb (rtpPort c =? 0))|]; simpl; eauto.
Qed.

(** The first detection: the datagram's SSRC is stored at once, a
    producer is requested for it, and when it arrives it is put in the
    room's map under its id and under the stored SSRC, and resumed if it
    is paused. *)
Lemma on_rtp_first_detection rid c packet w cur v :
  receivers w !! rid = Some cur ->
  truthy (ssrc cur) = false ->
  (12 <= length packet)%nat ->
  readUInt32BE 8 packet = Some v ->
  exists k,
    on_rtp rid c packet w =
      Susp (ReqProduce (pt_id (rv_transport c)) (kind c)
              (Build_RtpParameters
                 [codecParams (codec c) (payloadType c) (clockRate c)]
                 [] [VNum v] ("rtp-" +:+ pretty v)))
           (with_receivers (upd rid (set_ssrc (VNum v)))
              (with_receivers (upd rid incr_packetCount) w)) k /\
    forall pobj w' cur' room,
      receivers w' !! rid = Some cur' ->
      ssrc cur' = VNum v ->
      room_heap w' !! rv_room c = Some room ->
      let p := length (producer_heap w') in
      let w2 := state_of (k (RspProducer pobj) w') in
      producer_heap w2 = producer_heap w' ++ [pobj] /\
      (producer <$> receivers w2 !! rid) = Some (Some p) /\
      (exists room',
         room_heap w2 !! rv_room c = Some room' /\
         JsMap.get (VStr (p_id pobj)) (producers room') = Some p /\
         JsMap.get (VNum v) (producers room') = Some p) /\
      (p_paused pobj = true ->
       exists k', k (RspProducer pobj) w' =
                    Susp (ReqProducerResume (p_id pobj)) w2 k').
Proof.
  intros Hcur Hssrc Hlen Hv. apply Nat.leb_le in Hlen.
  unfold on_rtp, bind, upd_receiver, modify, receiver_at, deref. simpl.
  rewrite upd_lookup, decide_True, Hcur by done. simpl.
  rewrite Hssrc, Hlen, Hv. simpl.
  eexists. split; [reflexivity|].
  intros pobj w' cur' room Hcur' Hs Hroom. simpl.
  unfold producer_at, deref, upd_room, modify, producer_resume, bind, await,
    upd_producer, when. simpl.
  rewrite !append_lookup_new. simpl.
  rewrite upd_lookup, decide_True, Hcur' by done. simpl.
  rewrite append_lookup_new. simpl. rewrite Hs.
  assert (Hrooms : exists room',
    upd (rv_room c)
      (with_producers (JsMap.set (VNum v) (length (producer_heap w'))))
      (upd (rv_room c)
         (with_producers
            (JsMap.set (VStr (p_id pobj)) (length (producer_heap w'))))
         (room_heap w')) !! rv_room c = Some room' /\
    JsMap.get (VStr (p_id pobj)) (producers room')
      = Some (length (producer_heap w')) /\
    JsMap.get (VNum v) (producers room') = Some (length (producer_heap w'))).
  { rewrite !upd_lookup, !decide_True, Hroom by done. simpl.
    eexists. split; [reflexivity|]. simpl. split.
    - rewrite JsMap_get_set_ne by done. apply JsMap_get_set_eq.
    - apply JsMap_get_set_eq. }
  destruct (p_paused pobj) eqn:Hpaused; simpl.
  - unfold producer_at, deref. simpl. rewrite append_lookup_new. simpl.
    rewrite upd_lookup, decide_True, Hcur' by done. simpl.
    repeat split; try done. intros _. eauto.
  - rewrite upd_lookup, decide_True, Hcur' by done. simpl.
    destruct (negb (rtpPort c =? 0)); simpl;
      rewrite ?upd_lookup, ?decide_True, ?Hcur' by done; simpl;
      repeat split; try done;
      rewrite !upd_lookup, !decide_True in Hrooms by done; exact Hrooms.
Qed.

Lemma reachable_forwards_after_producer evs :
  forwards_after_producer (world (run evs boot)).
Proof.
  assert (Hs : steady (world (run [] boot)) (world (run evs (run [] boot)))).
  { apply (reachable_respects steady);
      auto using on_message_steady, on_rtp_steady, on_rtcp_steady, main_steady.
    by apply steady_frame. }
  destruct Hs as [_ Hinv]. apply Hinv.
  intros rid (packet & port & host & Hin). simpl in Hin.
  by apply elem_of_nil in Hin.
Qed.

(** C5 fails on the code: the first datagram of a receiver carries the
    SSRC 0, gets the receiver its producer and is forwarded.  The stored
    [0] makes the next datagram start a detection again, before the
    forwarding of line 57 is reached; the engine rejects that second
    [produce], the handler fails there, and the datagram, though
    counted, is not forwarded to the transport of a receiver that has a
    producer. *)
Theorem ssrc_zero_datagram_not_forwarded :
  let s1 := run [Settled 0 (RspWorker 1); Settled 0 (RspRouter router_A);
                 Settled 0 (RspPlainTransport plain_T);
                 Settled 0 (RspBinds None None);
                 Rtp 0 header_ssrc0; Settled 0 (RspProducer (producer_P "p1"))]
              boot in
  let s2 := run [Rtp 0 (header_ssrc0 ++ [x01]); Settled 0 (RspError "rejected")]
              s1 in
  (producer <$> receivers (world s1) !! 0%nat) = Some (Some 0%nat) /\
  outbox (world s1)
    = [UdpSend (rtpForward 0) header_ssrc0 40000 "127.0.0.1"] /\
  (packetCount <$> receivers (world s2) !! 0%nat) = Some 2 /\
  (producer <$> receivers (world s2) !! 0%nat) = Some (Some 0%nat) /\
  outbox (world s2) = outbox (world s1) /\
  pending s2 = [].
Proof. vm_compute. done. Qed.

(** * Further properties *)

(** ** The room registry, continued *)

(** X1: creating a room and getting it again.  A call for an
    unregistered key asks the engine for a router; when it arrives the
    call registers a new room (that router, three empty maps) under the
    key and returns it.  Every other key and every existing room is as
    before, and the next call for the key returns the same room at once,
    without a request and without changing the state. *)
Theorem room_created_then_found (key : JsVal) (wk : nat) (w : World) :
  JsMap.get key (rooms w) = None ->
  workers w !! 0%nat = Some wk ->
  exists k,
    getOrCreateRoom key w = Susp (ReqCreateRouter wk mediaCodecs) w k /\
    forall R w',
      let ref := length (room_heap w') in
      let w2 := room_created key R w' in
      k (RspRouter R) w' = Done ref w2 /\
      room_heap w2 !! ref = Some (Build_Room R [] [] []) /\
      JsMap.get key (rooms w2) = Some ref /\
      getOrCreateRoom key w2 = Done ref w2 /\
      (forall key', key' <> key ->
         JsMap.get key' (rooms w2) = JsMap.get key' (rooms w')) /\
      (forall d r, room_heap w' !! d = Some r -> room_heap w2 !! d = Some r).
Proof.
  intros Hnone Hwk.
  destruct (getOrCreateRoom_absent key wk w Hnone Hwk) as (k & Hk & Hres).
  exists k. split; [exact Hk|]. intros R w'. cbv zeta.
  assert (Hget : JsMap.get key (rooms (room_created key R w'))
                 = Some (length (room_heap w'))).
  { simpl. apply JsMap_get_set_eq. }
  split; [apply Hres|]. split; [|split; [exact Hget|split; [|split]]].
  - simpl. by rewrite list_lookup_middle.
  - by apply getOrCreateRoom_present.
  - intros key' Hne. simpl. by apply JsMap_get_set_ne.
  - intros d r Hd. simpl. rewrite lookup_app_l; [done|].
    by eapply lookup_lt_Some.
Qed.

Lemma room_created_then_found_witness :
  JsMap.get (VStr "lobby") (rooms studio) = None /\
  exists k, getOrCreateRoom (VStr "lobby") studio
            = Susp (ReqCreateRouter 1 mediaCodecs) studio k.
Proof.
  split; [reflexivity|].
  destruct (room_created_then_found (VStr "lobby") 1 studio eq_refl eq_refl)
    as (k & Hk & _).
  by exists k.
Defined.

(** X2: a request that needs a new room before any worker exists.
    [workers[0]] is [undefined], so [getOrCreateRoom] fails with a
    [TypeError] before it has asked for anything: a join or a
    get-rtp-capabilities that arrives then gets no reply and leaves the
    state as it was. *)
Theorem no_worker_no_room (sid : nat) (data : ClientMsg) (w : World) :
  workers w = [] ->
  (forall key, JsMap.get key (rooms w) = None ->
     getOrCreateRoom key w
       = Fail "TypeError: cannot read properties of undefined" w) /\
  (action data = VStr "join" ->
   JsMap.get (js_or (roomId data) (VStr "default")) (rooms w) = None ->
   on_message sid data w
     = Fail "TypeError: cannot read properties of undefined" w) /\
  (action data = VStr "get-rtp-capabilities" ->
   JsMap.get (VStr "default") (rooms w) = None ->
   on_message sid data w
     = Fail "TypeError: cannot read properties of undefined" w).
Proof.
  intros Hw.
  assert (Hg : forall key, JsMap.get key (rooms w) = None ->
            getOrCreateRoom key w
              = Fail "TypeError: cannot read properties of undefined" w).
  { intros key H. unfold getOrCreateRoom, bind, gets, JsMap.has. simpl.
    rewrite H. simpl. by rewrite Hw. }
  split; [exact Hg|]. split.
  - intros Ha Hk. handler_steps. rewrite Ha. simpl. by rewrite Hg.
  - intros Ha Hk. handler_steps. rewrite Ha. simpl. by rewrite Hg.
Qed.

Lemma no_worker_no_room_witness :
  workers empty_world = [] /\
  on_message 0 (join_msg VUndefined) empty_world
    = Fail "TypeError: cannot read properties of undefined" empty_world.
Proof.
  split; [reflexivity|].
  destruct (no_worker_no_room 0 (join_msg VUndefined) empty_world eq_refl)
    as (_ & H & _).
  by apply H.
Defined.

(** ** Joining *)

(** X3: a join from start to end, and what a rejection does to it.  With
    the room registered, the join asks for a transport on the room's
    router.  With the room missing, it first asks for a router,
    registers the room, and then asks for the transport on the new
    router; the reply completes the join.  When the engine rejects
    either request the handler fails there: nothing is sent and nothing
    more is changed (the session keeps the transport it had; a room
    registered on the way stays). *)
Theorem join_steps_and_rejections (sid : nat) (data : ClientMsg) (w : World) :
  action data = VStr "join" ->
  let key := js_or (roomId data) (VStr "default") in
  (forall d r,
     JsMap.get key (rooms w) = Some d ->
     room_heap w !! d = Some r ->
     exists k,
       on_message sid data w
         = Susp (ReqCreateWebRtcTransport (r_id (router r))) w k /\
       (forall t w', k (RspWebRtcTransport t) w' = Done tt (joined sid d t w')) /\
       (forall e w', k (RspError e) w' = Fail e w')) /\
  (forall wk,
     JsMap.get key (rooms w) = None ->
     workers w !! 0%nat = Some wk ->
     exists k,
       on_message sid data w = Susp (ReqCreateRouter wk mediaCodecs) w k /\
       (forall e w', k (RspError e) w' = Fail e w') /\
       forall R w', exists k2,
         k (RspRouter R) w'
           = Susp (ReqCreateWebRtcTransport (r_id R))
               (room_created key R w') k2 /\
         (forall t w2,
            k2 (RspWebRtcTransport t) w2
              = Done tt (joined sid (length (room_heap w')) t w2)) /\
         (forall e w2, k2 (RspError e) w2 = Fail e w2)).
Proof.
  intros Ha key. split.
  - intros d r Hd Hr. handler_steps. rewrite Ha. simpl. fold key.
    rewrite (getOrCreateRoom_present _ d) by done. simpl.
    unfold room_at. rewrite (deref_Some _ _ r) by done. simpl.
    eexists. split; [reflexivity|]. split; intros; reflexivity.
  - intros wk Hnone Hwk.
    destruct (getOrCreateRoom_rejected key wk w Hnone Hwk)
      as (k & Hk & Hok & Herr).
    handler_steps. rewrite Ha. simpl. fold key. rewrite Hk. simpl.
    eexists. split; [reflexivity|]. split.
    + intros e w'. simpl. by rewrite Herr.
    + intros R w'. simpl. rewrite Hok. simpl.
      unfold room_at, deref. simpl. rewrite list_lookup_middle by done. simpl.
      eexists. split; [reflexivity|]. split; intros; reflexivity.
Qed.

Lemma join_steps_and_rejections_witness :
  exists k, on_message 1 (join_msg (VStr "lobby")) studio
            = Susp (ReqCreateRouter 1 mediaCodecs) studio k.
Proof.
  destruct (join_steps_and_rejections 1 (join_msg (VStr "lobby")) studio
              eq_refl) as [_ H].
  destruct (H 1%nat eq_refl eq_refl) as (k & Hk & _).
  by exists k.
Defined.

(** ** Start-up *)

(** X4: start-up.  [main] makes four requests, in this order: a worker,
    a router with the H264 codec list on that worker, a plain transport
    on that router, and the binds of ports 5004 and 5005.  When all
    succeed the process has one worker, the room "default" around the
    router, and one bound receiver with the default options, no
    producer and no SSRC yet.  A rejection of any of the three engine
    calls ends [main] with that error and without a receiver. *)
Theorem start_up (wk : nat) (R : Router) (T : PlainTransport) (e : string) :
  let ok := [RspWorker wk; RspRouter R; RspPlainTransport T;
             RspBinds None None] in
  requests_alone (main empty_world) ok
    = [ReqCreateWorker; ReqCreateRouter wk mediaCodecs;
       ReqCreatePlainTransport (r_id R); ReqBind 5004 5005] /\
  alone (main empty_world) ok = Done tt (started wk R T) /\
  (forall replies,
     replies = [RspError e] \/ replies = [RspWorker wk; RspError e] \/
     replies = [RspWorker wk; RspRouter R; RspError e] ->
     failure (alone (main empty_world) replies) = Some e /\
     receivers (state_of (alone (main empty_world) replies)) = []).
Proof.
  cbv zeta. split; [reflexivity|]. split; [reflexivity|].
  intros replies [-> | [-> | ->]]; split; reflexivity.
Qed.

Lemma start_up_witness :
  failure (alone (main empty_world) [RspWorker 1; RspError "no router"])
    = Some "no router".
Proof.
  destruct (start_up 1 router_A plain_T "no router") as (_ & _ & H).
  destruct (H [RspWorker 1%nat; RspError "no router"]) as [Hf _];
    [right; left; reflexivity | exact Hf].
Defined.

(** ** Capabilities and connecting *)

(** X5: get-rtp-capabilities does not look at the session.  With the
    default room registered it replies at once with the capabilities of
    that room's router and changes nothing else; with the room missing
    it has the room created first (and reports the new router's
    capabilities), or fails without a reply when the engine rejects the
    router. *)
Theorem capabilities_any_time (sid : nat) (q : ClientMsg) (w : World) :
  action q = VStr "get-rtp-capabilities" ->
  (forall d r,
     JsMap.get (VStr "default") (rooms w) = Some d ->
     room_heap w !! d = Some r ->
     on_message sid q w = Done tt (capabilities_sent sid (router r) w)) /\
  (forall wk,
     JsMap.get (VStr "default") (rooms w) = None ->
     workers w !! 0%nat = Some wk ->
     exists k,
       on_message sid q w = Susp (ReqCreateRouter wk mediaCodecs) w k /\
       (forall R w',
          k (RspRouter R) w'
            = Done tt (capabilities_sent sid R
                         (room_created (VStr "default") R w'))) /\
       (forall e w', k (RspError e) w' = Fail e w')).
Proof.
  intros Hq. split.
  - intros d r Hd Hr. handler_steps. rewrite Hq. simpl.
    rewrite (getOrCreateRoom_present _ d) by done. simpl.
    unfold room_at. by rewrite (deref_Some _ _ r).
  - intros wk Hnone Hwk.
    destruct (getOrCreateRoom_rejected _ wk w Hnone Hwk)
      as (k & Hk & Hok & Herr).
    handler_steps. rewrite Hq. simpl. rewrite Hk. simpl.
    eexists. split; [reflexivity|]. split.
    + intros R w'. simpl. rewrite Hok. simpl.
      unfold room_at, deref. simpl. by rewrite list_lookup_middle.
    + intros e w'. simpl. by rewrite Herr.
Qed.

Lemma capabilities_any_time_witness :
  on_message 1 (msg "get-rtp-capabilities") studio
    = Done tt (capabilities_sent 1 router_A studio).
Proof.
  destruct (capabilities_any_time 1 (msg "get-rtp-capabilities") studio
              eq_refl) as [H _].
  exact (H 0%nat room_D eq_refl eq_refl).
Defined.

(** X6: connect-transport on a session with a transport hands the
    client's DTLS parameters to the engine for the transport the session
    has at that moment.  The acknowledgement transport-connected is sent
    when, and only when, the engine accepts; nothing else is changed
    either way. *)
Theorem connect_transport_steps (sid : nat) (q : ClientMsg) (w : World)
    (t : WebRtcTransport) :
  action q = VStr "connect-transport" ->
  session_transport sid w = Some t ->
  exists k,
    on_message sid q w = Susp (ReqConnect (t_id t) (msg_dtlsParameters q)) w k /\
    (forall w', k RspOk w' = Done tt (connected sid w')) /\
    (forall e w', k (RspError e) w' = Fail e w').
Proof.
  intros Hq Ht. handler_steps. rewrite Hq, Ht. simpl.
  eexists. split; [reflexivity|]. split; intros; reflexivity.
Qed.

Lemma connect_transport_steps_witness :
  session_transport 0 studio = Some transport_X /\
  exists k, on_message 0 (msg "connect-transport") studio
            = Susp (ReqConnect "t-1" VUndefined) studio k.
Proof.
  split; [reflexivity|].
  destruct (connect_transport_steps 0 (msg "connect-transport") studio
              transport_X eq_refl eq_refl) as (k & Hk & _).
  by exists k.
Defined.

(** ** Consuming *)

(** X7: a consume after the discovery.  The consumer is requested on the
    transport the session has when the producer is found.  When the
    engine returns it, it is put in the default room's map under its id
    (whatever room the session joined: no other room is touched) and
    tagged with the id of the transport the session has {e then};
    if it is not paused the client gets consumer-created at once,
    otherwise after the consumer has been resumed.  A rejected consume
    leaves no trace; a rejected resume leaves the consumer registered
    and tagged, and the client without a reply. *)
Theorem consume_completes (sid : nat) (q : ClientMsg) (w : World)
    (t : WebRtcTransport) (d p : nat) (pobj : Producer) :
  action q = VStr "consume" ->
  session_transport sid w = Some t ->
  JsMap.get (VStr "default") (rooms w) = Some d ->
  find_producer d w = Some p ->
  producer_heap w !! p = Some pobj ->
  exists k,
    on_message sid q w
      = Susp (ReqConsume (t_id t) (p_id pobj) (msg_rtpCapabilities q)) w k /\
    (forall e w', k (RspError e) w' = Fail e w') /\
    forall cobj w' t' pobj',
      session_transport sid w' = Some t' ->
      producer_heap w' !! p = Some pobj' ->
      let c := length (consumer_heap w') in
      let w2 := consumer_added d c cobj (t_id t') w' in
      consumer_heap w2 !! c = Some (set_c_transportId (t_id t') cobj) /\
      (forall r, room_heap w' !! d = Some r ->
         exists r2, room_heap w2 !! d = Some r2 /\
                    JsMap.get (VStr (c_id cobj)) (consumers r2) = Some c) /\
      (forall d', d' <> d -> room_heap w2 !! d' = room_heap w' !! d') /\
      (c_paused cobj = false ->
       k (RspConsumer cobj) w'
         = Done tt (consumer_reported sid cobj (p_id pobj') w2)) /\
      (c_paused cobj = true ->
       exists k2,
         k (RspConsumer cobj) w'
           = Susp (ReqConsumerResume (c_id cobj)) w2 k2 /\
         (forall e w3, k2 (RspError e) w3 = Fail e w3) /\
         (forall w3 cobj3 pobj3,
            consumer_heap w3 !! c = Some cobj3 ->
            producer_heap w3 !! p = Some pobj3 ->
            k2 RspOk w3
              = Done tt (consumer_reported sid cobj3 (p_id pobj3)
                           (resumed c w3)))).
Proof.
  intros Hq Ht Hd Hp Hpo. handler_steps. rewrite Hq, Ht. simpl.
  rewrite (getOrCreateRoom_present _ d) by done. simpl.
  rewrite (discovery_found _ _ _ p) by done. simpl.
  unfold producer_at. rewrite (deref_Some _ _ pobj) by done. simpl.
  unfold read_transport. rewrite Ht. simpl.
  eexists. split; [reflexivity|]. split; [reflexivity|].
  intros cobj w' t' pobj' Ht' Hpo'. cbv zeta.
  assert (Hc : consumer_heap
                 (consumer_added d (length (consumer_heap w')) cobj (t_id t') w')
                 !! length (consumer_heap w')
               = Some (set_c_transportId (t_id t') cobj)).
  { simpl. rewrite upd_lookup, decide_True by done.
    by rewrite list_lookup_middle. }
  split; [exact Hc|]. split.
  { intros r Hr. simpl. rewrite upd_lookup, decide_True, Hr by done. simpl.
    eexists. split; [reflexivity|]. simpl. apply JsMap_get_set_eq. }
  split.
  { intros d' Hne. simpl. by rewrite upd_lookup, decide_False. }
  unfold transport_consume, bind, await, gets, modify, ret, consumer_at,
    deref, upd_room, upd_consumer, modify, when.
  cbn [bindS]. simpl consumer_heap. rewrite list_lookup_middle by done.
  cbn [bindS].
  replace (session_transport sid _) with (Some t') by (by rewrite <- Ht').
  cbn [bindS].
  fold (consumer_added d (length (consumer_heap w')) cobj (t_id t') w').
  repeat match goal with
  | |- context [bindS (match ?x with Some _ => _ | None => _ end) _] =>
      change x with (consumer_heap
                       (consumer_added d (length (consumer_heap w')) cobj
                          (t_id t') w') !! length (consumer_heap w'));
      rewrite Hc
  end.
  cbn [bindS].
  change (c_paused (set_c_transportId (t_id t') cobj)) with (c_paused cobj).
  split.
  - intros ->. cbn [bindS]. unfold ret. cbn [bindS]. rewrite Hc. cbn [bindS].
    unfold producer_at, deref.
    replace (producer_heap (consumer_added _ _ _ _ w')) with (producer_heap w')
      by reflexivity.
    rewrite Hpo'. reflexivity.
  - intros Hpaused. eexists. split.
    { rewrite Hpaused. unfold consumer_resume, bind, consumer_at, deref, await.
      rewrite Hc. cbn [bindS]. simpl c_id. reflexivity. }
    split; [reflexivity|].
    intros w3 cobj3 pobj3 Hc3 Hp3. unfold upd_consumer, modify. cbn [bindS].
    fold (resumed (length (consumer_heap w')) w3).
    replace (consumer_heap (resumed (length (consumer_heap w')) w3)
               !! length (consumer_heap w'))
      with (Some (set_c_paused false cobj3))
      by (simpl; by rewrite upd_lookup, decide_True, Hc3).
    cbn [bindS]. unfold producer_at, deref.
    replace (producer_heap (resumed _ w3)) with (producer_heap w3)
      by reflexivity.
    rewrite Hp3. reflexivity.
Qed.

Lemma consume_completes_witness :
  find_producer 0 studio_live = Some 0%nat /\
  exists k, on_message 0 (msg "consume") studio_live
            = Susp (ReqConsume "t-1" "p-1" VUndefined) studio_live k.
Proof.
  split; [reflexivity|].
  destruct (consume_completes 0 (msg "consume") studio_live transport_X 0 0
              (producer_P "p-1") eq_refl eq_refl eq_refl eq_refl eq_refl)
    as (k & Hk & _).
  by exists k.
Defined.

Lemma JsMap_set_absent {V} (k : JsVal) (v : V) (m : JsMap.t V) :
  JsMap.get k m = None -> JsMap.set k v m = m ++ [(k, v)].
Proof.
  induction m as [|[k' v'] m IH]; simpl; [done|].
  destruct (decide (k = k')); [done|]. intros H. by rewrite IH.
Qed.

Lemma find_app {A} (f : A -> bool) (l1 l2 : list A) :
  List.find f (l1 ++ l2) =
    match List.find f l1 with
    | Some x => Some x
    | None => List.find f l2
    end.
Proof.
  induction l1 as [|x l1 IH]; simpl; [done|]. by destruct (f x).
Qed.

Lemma find_ext_Forall {A} (P : A -> Prop) (f g : A -> bool) (l : list A) :
  Forall P l -> (forall x, P x -> f x = g x) ->
  List.find f l = List.find g l.
Proof.
  intros Hl Hfg. induction Hl as [|x l Hx Hl IH]; simpl; [done|].
  rewrite (Hfg x Hx), IH. done.
Qed.

Lemma find_consumer_added (d : nat) (cobj : Consumer) (tid : string)
    (w : World) (r : Room) :
  room_heap w !! d = Some r ->
  JsMap.get (VStr (c_id cobj)) (consumers r) = None ->
  Forall (fun x => (x < length (consumer_heap w))%nat)
         (JsMap.values (consumers r)) ->
  let c := length (consumer_heap w) in
  find_consumer d tid (consumer_added d c cobj tid w) =
    match find_consumer d tid w with
    | Some c0 => Some c0
    | None => Some c
    end.
Proof.
  intros Hr Hfresh Hvalid. cbv zeta. unfold find_consumer.
  replace (room_heap (consumer_added d (length (consumer_heap w)) cobj tid w)
             !! d)
    with (Some (with_consumers
                  (JsMap.set (VStr (c_id cobj)) (length (consumer_heap w))) r))
    by (simpl; by rewrite upd_lookup, decide_True, Hr).
  rewrite Hr. simpl consumers. rewrite JsMap_set_absent by done.
  unfold JsMap.values. rewrite map_app, find_app. simpl map.
  rewrite (find_ext_Forall (fun x => (x < length (consumer_heap w))%nat)
             _ (owned_by w tid)); [|exact Hvalid|].
  - destruct (List.find (owned_by w tid) (map snd (consumers r))); [done|].
    simpl. unfold owned_by. simpl.
    rewrite upd_lookup, decide_True, list_lookup_middle by done. simpl.
    by rewrite bool_decide_eq_true_2.
  - intros x Hx. unfold owned_by. simpl.
    rewrite upd_lookup, decide_False by lia.
    by rewrite lookup_app_l.
Qed.

(** X8: resume-consumer acts on the first consumer of the transport.
    A consume registers its consumer (under an id not yet in the map)
    last in the room's map and with the id of its transport in
    [_transportId].  The consumer that resume-consumer then finds for
    that transport is the first one in the map that carried the
    transport's id before, if there was one, and otherwise, whatever
    consumers of other transports the map holds, the new one: a second
    consume on the same transport does not change which consumer a
    later resume-consumer acts on. *)
Theorem first_consumer_is_found (d : nat) (cobj : Consumer) (tid : string)
    (w : World) (r : Room) :
  room_heap w !! d = Some r ->
  JsMap.get (VStr (c_id cobj)) (consumers r) = None ->
  Forall (fun x => (x < length (consumer_heap w))%nat)
         (JsMap.values (consumers r)) ->
  let c := length (consumer_heap w) in
  let w2 := consumer_added d c cobj tid w in
  room_consumers d w2 = JsMap.values (consumers r) ++ [c] /\
  consumer_heap w2 !! c = Some (set_c_transportId tid cobj) /\
  (forall before c0 after cobj0,
     JsMap.values (consumers r) = before ++ c0 :: after ->
     Forall (fun x => ~ tagged w tid x) before ->
     consumer_heap w !! c0 = Some cobj0 ->
     c_transportId cobj0 = Some tid ->
     find_consumer d tid w2 = Some c0) /\
  (Forall (fun x => ~ tagged w tid x) (JsMap.values (consumers r)) ->
   find_consumer d tid w2 = Some c).
Proof.
  intros Hr Hfresh Hvalid c w2.
  pose proof (find_consumer_added d cobj tid w r Hr Hfresh Hvalid) as Hfind.
  cbv zeta in Hfind. fold c in Hfind. fold w2 in Hfind.
  assert (Hvals : room_consumers d w = JsMap.values (consumers r))
    by (unfold room_consumers; by rewrite Hr).
  split; [|split; [|split]].
  - unfold room_consumers, w2. simpl.
    rewrite upd_lookup, decide_True, Hr by done. simpl.
    rewrite JsMap_set_absent by done. unfold JsMap.values.
    by rewrite map_app.
  - unfold w2, c. simpl.
    by rewrite upd_lookup, decide_True, list_lookup_middle.
  - intros before c0 after cobj0 Hl Hb Hc0 Ht0.
    assert (H : find_consumer d tid w = Some c0).
    { apply find_consumer_first. rewrite Hvals. exists before, after.
      repeat split; try done. by exists cobj0. }
    by rewrite Hfind, H.
  - intros Hnone.
    assert (H : find_consumer d tid w = None).
    { apply find_consumer_none. by rewrite Hvals. }
    by rewrite Hfind, H.
Qed.

Lemma first_consumer_is_found_witness :
  JsMap.values (consumers (Build_Room router_A
       [(VStr "t-0", transport_other); (VStr "t-1", transport_X)] []
       [(VStr "c-0", 0%nat); (VStr "c-1", 1%nat)])) = [0%nat; 1%nat] /\
  find_consumer 0 "t-1"
    (consumer_added 0 2 (Build_Consumer "c-2" "video" (VObj 5) true None)
       "t-1" studio_shared)
    = Some 1%nat /\
  find_consumer 0 "t-2"
    (consumer_added 0 2 (Build_Consumer "c-2" "video" (VObj 5) true None)
       "t-2" studio_shared)
    = Some 2%nat.
Proof.
  split; [reflexivity|]. split.
  - destruct (first_consumer_is_found 0
                (Build_Consumer "c-2" "video" (VObj 5) true None) "t-1"
                studio_shared _ eq_refl eq_refl) as (_ & _ & H & _).
    { repeat constructor. }
    apply (H [0%nat] 1%nat [] consumer_C); try reflexivity.
    constructor; [|constructor]. intros (cobj & Hc & Ht).
    injection Hc as <-. discriminate Ht.
  - destruct (first_consumer_is_found 0
                (Build_Consumer "c-2" "video" (VObj 5) true None) "t-2"
                studio_shared _ eq_refl eq_refl) as (_ & _ & _ & H).
    { repeat constructor. }
    apply H.
    repeat constructor; intros (cobj & Hc & Ht);
      injection Hc as <-; discriminate Ht.
Defined.

(** ** Discovery picks open video producers *)

(** X9: what the discovery selects.  A producer it returns is in the
    room's map, is a video producer and is not closed, and no entry
    before it in the map's order is such a producer; it returns one
    whenever the map holds a video producer that is not closed, and
    none exactly when the map holds no such producer. *)
Theorem find_producer_selects (room : nat) (w : World) (r : Room) :
  room_heap w !! room = Some r ->
  (forall p,
     find_producer room w = Some p ->
     exists before after pobj,
       JsMap.values (producers r) = before ++ p :: after /\
       Forall (fun x => ~ open_video w x) before /\
       producer_heap w !! p = Some pobj /\
       p_kind pobj = "video" /\ p_closed pobj = false) /\
  (forall p0 pobj,
     p0 ∈ JsMap.values (producers r) ->
     producer_heap w !! p0 = Some pobj ->
     p_kind pobj = "video" -> p_closed pobj = false ->
     exists p, find_producer room w = Some p) /\
  (find_producer room w = None <->
   Forall (fun x => ~ open_video w x) (JsMap.values (producers r))).
Proof.
  intros Hr.
  assert (Hvals : room_producers room w = JsMap.values (producers r))
    by (unfold room_producers; by rewrite Hr).
  split; [|split].
  - intros p Hp. apply find_producer_first in Hp.
    rewrite Hvals in Hp.
    destruct Hp as (before & after & Hl & Hb & pobj & Hpo & Hk & Hc).
    by exists before, after, pobj.
  - intros p0 pobj Hin Hpo Hk Hc.
    destruct (first_with_exists _ _ (is_video_open_spec w)
                (JsMap.values (producers r)) p0 Hin) as [p Hp].
    { by exists pobj. }
    exists p. apply find_producer_first. by rewrite Hvals.
  - rewrite find_producer_none. by rewrite Hvals.
Qed.

Lemma find_producer_selects_witness :
  find_producer 0 studio_mixed = Some 2%nat /\
  find_producer 0 studio_stale = None.
Proof.
  split.
  - destruct (find_producer_selects 0 studio_mixed _ eq_refl) as (_ & H & _).
    destruct (H 2%nat (producer_P "p-1")) as [p Hp];
      [| reflexivity | reflexivity | reflexivity |].
    { apply list_elem_of_In. simpl. auto 10. }
    rewrite Hp. vm_compute in Hp. by injection Hp as <-.
  - destruct (find_producer_selects 0 studio_stale _ eq_refl) as (_ & _ & H).
    apply H. repeat constructor; intros (pobj & Hp & _ & Hc);
      injection Hp as <-; discriminate Hc.
Defined.

(** ** Detecting the SSRC *)

Lemma byte_val_range b : 0 <= byte_val b < 256.
Proof.
  unfold byte_val. pose proof (Byte.to_N_bounded b). lia.
Qed.

(** X10: the detection.  A datagram of at least 12 bytes that reaches a
    receiver whose stored SSRC is falsy never makes the read at offset 8
    fail: the SSRC is the big-endian number of bytes 8 to 11, below
    2^32; it is stored before the engine is asked, and the request for
    the producer names that SSRC, the receiver's kind and codec
    parameters, and the cname "rtp-" followed by the SSRC in decimal.
    If the engine rejects the request the handler fails and the
    datagram is not forwarded. *)
Theorem ssrc_detection (rid : nat) (c : Receiver) (packet : list byte)
    (w : World) (cur : Receiver) :
  receivers w !! rid = Some cur ->
  truthy (ssrc cur) = false ->
  (12 <= length packet)%nat ->
  exists b8 b9 b10 b11 k,
    packet !! 8%nat = Some b8 /\ packet !! 9%nat = Some b9 /\
    packet !! 10%nat = Some b10 /\ packet !! 11%nat = Some b11 /\
    let v := byte_val b8 * 2 ^ 24 + byte_val b9 * 2 ^ 16
             + byte_val b10 * 2 ^ 8 + byte_val b11 in
    0 <= v < 2 ^ 32 /\
    on_rtp rid c packet w =
      Susp (ReqProduce (pt_id (rv_transport c)) (kind c)
              (Build_RtpParameters
                 [codecParams (codec c) (payloadType c) (clockRate c)]
                 [] [VNum v] ("rtp-" +:+ pretty v)))
           (detecting rid v w) k /\
    (ssrc <$> receivers (detecting rid v w) !! rid) = Some (VNum v) /\
    (forall e w', k (RspError e) w' = Fail e w').
Proof.
  intros Hcur Hssrc Hlen.
  do 12 (destruct packet as [|? packet]; [simpl in Hlen; lia|]).
  eexists _, _, _, _, _. do 4 (split; [reflexivity|]). cbv zeta.
  split.
  { match goal with
    | |- 0 <= byte_val ?x * _ + byte_val ?y * _ + byte_val ?z * _
              + byte_val ?u < _ =>
        pose proof (byte_val_range x); pose proof (byte_val_range y);
        pose proof (byte_val_range z); pose proof (byte_val_range u)
    end. lia. }
  split; [|split].
  - unfold on_rtp, bind, upd_receiver, modify, receiver_at, deref. simpl.
    rewrite upd_lookup, decide_True, Hcur by done. simpl.
    rewrite Hssrc. simpl. reflexivity.
  - simpl. rewrite !upd_lookup, !decide_True, Hcur by done. reflexivity.
  - intros e w'. reflexivity.
Qed.

Lemma ssrc_detection_witness :
  exists k,
    on_rtp 0 (new_receiver 0 plain_T no_options) header_ssrc0
      (with_receivers (fun _ => [new_receiver 0 plain_T no_options]) studio)
    = Susp (ReqProduce "plain-T" "video"
              (Build_RtpParameters [codecParams "H264" 96 90000] []
                 [VNum 0] "rtp-0"))
        (detecting 0 0
           (with_receivers (fun _ => [new_receiver 0 plain_T no_options])
              studio)) k.
Proof.
  destruct (ssrc_detection 0 (new_receiver 0 plain_T no_options) header_ssrc0
              (with_receivers (fun _ => [new_receiver 0 plain_T no_options])
                 studio)
              (new_receiver 0 plain_T no_options) eq_refl eq_refl)
    as (b8 & b9 & b10 & b11 & k & H8 & H9 & H10 & H11 & _ & Hk & _).
  { simpl. lia. }
  injection H8 as <-. injection H9 as <-. injection H10 as <-.
  injection H11 as <-. by exists k.
Defined.

(** X11: datagrams that are lost.  While the receiver has no producer, a
    datagram that starts no detection (one shorter than 12 bytes; any
    one once an SSRC other than 0 is stored, be the producer still being
    created or its creation rejected) only bumps the packet counter: it
    is neither forwarded nor kept for later, and the engine is not asked
    again. *)
Theorem datagram_dropped (rid : nat) (c : Receiver) (packet : list byte)
    (w : World) (cur : Receiver) :
  receivers w !! rid = Some cur ->
  producer cur = None ->
  (length packet < 12)%nat \/ truthy (ssrc cur) = true ->
  on_rtp rid c packet w
    = Done tt (with_receivers (upd rid incr_packetCount) w).
Proof.
  intros Hcur Hp Hskip.
  unfold on_rtp, bind, upd_receiver, modify, receiver_at, deref. simpl.
  rewrite upd_lookup, decide_True, Hcur by done. simpl.
  replace (negb (truthy (ssrc cur)) && (12 <=? length packet)%nat) with false.
  - simpl. rewrite upd_lookup, decide_True, Hcur by done. simpl.
    by rewrite Hp.
  - symmetry. apply andb_false_iff.
    destruct Hskip as [Hshort | ->]; [right|by left].
    apply Nat.leb_gt. exact Hshort.
Qed.

Lemma datagram_dropped_witness :
  on_rtp 0 (new_receiver 0 plain_T no_options) []
    (with_receivers (fun _ => [new_receiver 0 plain_T no_options]) studio)
  = Done tt
      (with_receivers (upd 0 incr_packetCount)
         (with_receivers (fun _ => [new_receiver 0 plain_T no_options])
            studio)).
Proof.
  apply (datagram_dropped 0 _ [] _ (new_receiver 0 plain_T no_options));
    [reflexivity | reflexivity | left; simpl; lia].
Defined.

(** ** Once joined, always joined *)

#[global] Instance keeps_sessions_preorder : PreOrder keeps_sessions.
Proof.
  split.
  - intros w. split; [done | eauto].
  - intros a b c [L1 H1] [L2 H2]. split; [lia|].
    intros sid t Ht. destruct (H1 sid t Ht) as [t' Ht']. eauto.
Qed.

Lemma keeps_sessions_frame f :
  (forall w, sessions (f w) = sessions w) -> guar keeps_sessions f.
Proof.
  intros Hf w. unfold keeps_sessions, session_transport. rewrite Hf. eauto.
Qed.

Lemma keeps_sessions_set sid t :
  guar keeps_sessions (with_sessions (fun l => <[sid := Some t]> l)).
Proof.
  intros w. split; [simpl; by rewrite length_insert|].
  intros sid' t' Ht'. unfold session_transport in *. simpl.
  destruct (decide (sid = sid')) as [<-|Hne].
  - destruct (sessions w !! sid) as [o|] eqn:Hs; [|done].
    rewrite list_lookup_insert_eq by (by eapply lookup_lt_Some). eauto.
  - rewrite list_lookup_insert_ne by done. eauto.
Qed.

Lemma keeps_sessions_new :
  guar keeps_sessions (with_sessions (fun l => l ++ [None])).
Proof.
  intros w. split; [simpl; rewrite length_app; lia|].
  intros sid t Ht. unfold session_transport in *. simpl.
  destruct (sessions w !! sid) as [o|] eqn:Hs; [|done].
  rewrite lookup_app_l by (by eapply lookup_lt_Some). rewrite Hs. eauto.
Qed.

Ltac solve_sessions :=
  first [ apply keeps_sessions_frame; reflexivity
        | apply keeps_sessions_set ].

(** X12: once joined, always joined.  No step of the program clears a
    session's [transport] or drops a session: a session that has a
    transport in some reachable state has one in every later state, so
    that from then on the guards of connect-transport, consume and
    resume-consumer let its requests through. *)
Theorem transport_never_cleared (evs evs' : list Event) :
  keeps_sessions (world (run evs boot)) (world (run evs' (run evs boot))).
Proof.
  apply (reachable_respects keeps_sessions).
  - intros sid data. open_handlers. walk; solve_sessions.
  - intros rid c p. open_handlers. walk; solve_sessions.
  - intros rid c p. open_handlers. walk; solve_sessions.
  - apply keeps_sessions_new.
  - open_handlers. walk; solve_sessions.
Qed.

(** ** Who touches what *)

Ltac rooms_part :=
  let d := fresh "d" in let r := fresh "r" in let Hr := fresh "Hr" in
  intros d r Hr; simpl;
  first
    [ exists r; split;
        [ first [ exact Hr
                | rewrite lookup_app_l by (by eapply lookup_lt_Some);
                  exact Hr ]
        | by repeat split ]
    | rewrite upd_lookup;
      match goal with
      | |- context [decide (?a = d)] =>
          destruct (decide (a = d)) as [->|]
      end;
      [ rewrite Hr; simpl | ];
      eexists; (split; [ first [reflexivity | exact Hr] | ]);
      by repeat split ].

Ltac outbox_part :=
  first [ exists []; split; [ by rewrite app_nil_r | constructor ]
        | eexists [_]; split;
            [ reflexivity | by repeat (constructor; eauto) ] ].

#[global] Instance signalling_only_preorder sid :
  PreOrder (signalling_only sid).
Proof.
  split.
  - intros w. repeat split; try done; [eauto | outbox_part].
  - intros a b c (W1 & P1 & R1 & S1 & H1 & l1 & O1 & F1)
                 (W2 & P2 & R2 & S2 & H2 & l2 & O2 & F2).
    repeat split; try congruence.
    + intros sid' Hne. by rewrite S2, S1.
    + intros d r Hr. destruct (H1 d r Hr) as (r1 & Hr1 & E1 & E2).
      destruct (H2 d r1 Hr1) as (r2 & Hr2 & E3 & E4).
      exists r2. repeat split; congruence.
    + exists (l1 ++ l2). rewrite O2, O1, app_assoc. split; [done|].
      by apply Forall_app.
Qed.

Ltac solve_signalling :=
  let w := fresh "w" in
  intros w; unfold signalling_only; simpl;
  repeat match goal with |- _ /\ _ => split end;
  first [ reflexivity
        | by (intros; rewrite list_lookup_insert_ne by done)
        | done
        | rooms_part
        | outbox_part ].

(** X13: the footprint of a signalling message.  In every stretch of its
    run, whatever happened while it was suspended, the handler of a
    message on a session leaves the workers, the producers and the
    receivers alone, changes no other session's transport, keeps the
    router and the producer map of every existing room, and sends only
    to the client of its own session. *)
Theorem signalling_footprint (sid : nat) (data : ClientMsg) (w : World) :
  seg (signalling_only sid) w (on_message sid data w).
Proof.
  revert w. change (respects (signalling_only sid) (on_message sid data)).
  open_handlers. walk; solve_signalling.
Qed.

#[global] Instance ingestion_only_preorder rid x :
  PreOrder (ingestion_only rid x).
Proof.
  split.
  - intros w. repeat split; try done; [eauto 10 | outbox_part].
  - intros a b c (W1 & G1 & S1 & C1 & L1 & V1 & H1 & l1 & O1 & F1)
                 (W2 & G2 & S2 & C2 & L2 & V2 & H2 & l2 & O2 & F2).
    repeat split; try congruence.
    + intros rid' Hne. by rewrite V2, V1.
    + intros d r Hr. destruct (H1 d r Hr) as (r1 & Hr1 & E1 & E2 & E3).
      destruct (H2 d r1 Hr1) as (r2 & Hr2 & E4 & E5 & E6).
      exists r2. repeat split; congruence.
    + exists (l1 ++ l2). rewrite O2, O1, app_assoc. split; [done|].
      by apply Forall_app.
Qed.

Lemma upd_length {A} (i : nat) (f : A -> A) (l : list A) :
  length (upd i f l) = length l.
Proof. unfold upd. destruct (l !! i); [apply length_insert | done]. Qed.

Ltac solve_ingestion :=
  let w := fresh "w" in
  intros w; unfold ingestion_only; simpl;
  repeat match goal with |- _ /\ _ => split end;
  first [ reflexivity
        | apply upd_length
        | by (let rid' := fresh in let Hne := fresh in
              intros rid' Hne; rewrite upd_lookup, decide_False by done)
        | done
        | rooms_part
        | outbox_part ].

(** X14: the footprint of a datagram.  In every stretch of its run the
    handler of an RTP datagram leaves the workers, the registry, the
    sessions, the consumers and the other receivers alone, keeps the
    router and the transport and consumer maps of every room, and sends
    nothing but the datagram itself, unchanged, to the transport's local
    RTP port on 127.0.0.1. *)
Theorem ingestion_footprint (rid : nat) (c : Receiver) (packet : list byte)
    (w : World) :
  seg (ingestion_only rid
         (UdpSend (rtpForward rid) packet (rtpPort c) "127.0.0.1"))
      w (on_rtp rid c packet w).
Proof.
  revert w.
  change (respects
            (ingestion_only rid
               (UdpSend (rtpForward rid) packet (rtpPort c) "127.0.0.1"))
            (on_rtp rid c packet)).
  open_handlers. walk; solve_ingestion.
Qed.

(** ** Nothing is removed *)

#[global] Instance room_kept_preorder : PreOrder room_kept.
Proof.
  split.
  - intros r. by repeat split.
  - intros a b c (E1 & P1 & C1) (E2 & P2 & C2).
    repeat split; [congruence | eauto | eauto].
Qed.

#[global] Instance producer_kept_preorder : PreOrder producer_kept.
Proof.
  split.
  - intros p. by repeat split.
  - intros a b c (E1 & K1 & C1 & P1) (E2 & K2 & C2 & P2).
    repeat split; try congruence. eauto.
Qed.

#[global] Instance consumer_kept_preorder : PreOrder consumer_kept.
Proof.
  split.
  - intros p. by repeat split.
  - intros a b c (E1 & K1 & C1 & P1) (E2 & K2 & C2 & P2).
    repeat split; try congruence. eauto.
Qed.

Section HeapKept.
Context {A : Type} (Q : A -> A -> Prop) `{!PreOrder Q}.

Lemma heap_kept_same (h : list A) : heap_kept Q h h.
Proof. intros i x Hx. exists x. by split. Qed.

Lemma heap_kept_trans (h1 h2 h3 : list A) :
  heap_kept Q h1 h2 -> heap_kept Q h2 h3 -> heap_kept Q h1 h3.
Proof.
  intros H1 H2 i x Hx. destruct (H1 i x Hx) as (y & Hy & Qy).
  destruct (H2 i y Hy) as (z & Hz & Qz). exists z. split; [done|].
  by etransitivity.
Qed.

Lemma heap_kept_app (h l : list A) : heap_kept Q h (h ++ l).
Proof.
  intros i x Hx. exists x. split; [|done].
  rewrite lookup_app_l; [done|]. by eapply lookup_lt_Some.
Qed.

Lemma heap_kept_upd (h : list A) j g :
  (forall x, Q x (g x)) -> heap_kept Q h (upd j g h).
Proof.
  intros Hg i x Hx. rewrite upd_lookup.
  destruct (decide (j = i)) as [->|]; [|exists x; by split].
  rewrite Hx. simpl. eauto.
Qed.
End HeapKept.

#[global] Instance only_grows_preorder : PreOrder only_grows.
Proof.
  split.
  - intros w. repeat split; [done | apply heap_kept_same; exact _ ..].
  - intros a b c (K1 & R1 & P1 & C1) (K2 & R2 & P2 & C2).
    repeat split; [eauto | eapply heap_kept_trans; eauto; exact _ ..].
Qed.

Ltac solve_grows :=
  let w := fresh "w" in
  intros w; unfold only_grows; simpl;
  repeat match goal with |- _ /\ _ => split end;
  first [ done
        | by (intros; apply JsMap_has_set_mono)
        | apply heap_kept_same; exact _
        | apply heap_kept_app; exact _
        | apply heap_kept_upd;
            [ exact _
            | intros; repeat split; simpl;
              auto using JsMap_has_set_mono; done ] ].

(** X15: nothing is removed, closed or paused.  From any reachable state
    to any later one, every registered room key is still registered,
    every room still has its router and all the keys of its producer and
    consumer maps, and every producer and consumer is still there with
    its id and kind, not closed unless it was, and not paused unless it
    was. *)
Theorem state_only_grows (evs evs' : list Event) :
  only_grows (world (run evs boot)) (world (run evs' (run evs boot))).
Proof.
  apply (reachable_respects only_grows).
  - intros sid data. open_handlers. walk; solve_grows.
  - intros rid c p. open_handlers. walk; solve_grows.
  - intros rid c p. open_handlers. walk; solve_grows.
  - solve_grows.
  - open_handlers. walk; solve_grows.
Qed.

(** ** Lookup by id *)

Section Context_steps.
Context (R : World -> World -> Prop) `{!PreOrder R}.

(** An update that follows a read through a reference may rely on what
    was read. *)
Lemma respects_deref_modify {A B} (heap : World -> list A) (ref : nat)
    (g : A -> World -> World) (rest : A -> M B) :
  (forall x w, heap w !! ref = Some x -> R w (g x w)) ->
  (forall x, respects R (rest x)) ->
  respects R (x <- deref heap ref;; modify (g x);;; rest x).
Proof.
  intros Hg Hrest w. unfold bind, deref, modify.
  destruct (heap w !! ref) as [x|] eqn:Hx; simpl; [|reflexivity].
  eapply seg_from; [exact _ | by apply Hg | apply Hrest].
Qed.
End Context_steps.

Ltac walk_reads :=
  repeat match goal with
  | |- respects _ (bind (deref _ _) _) =>
      apply respects_deref_modify; [exact _ | intros ? ? ? | intros ?]
  | |- respects _ (bind _ _) => apply respects_bind; [exact _ | | intros ?]
  | |- respects _ (ret _) => apply respects_ret; exact _
  | |- respects _ (throw _) => apply respects_throw; exact _
  | |- respects _ bad_reply => apply respects_throw; exact _
  | |- respects _ never => apply respects_never; exact _
  | |- respects _ (await _) => apply respects_await; exact _
  | |- respects _ (gets _) => apply respects_gets; exact _
  | |- respects _ (modify _) => apply respects_modify
  | |- respects _ (deref _ _) => apply respects_deref; exact _
  | |- respects _ (read_transport _) => apply respects_read_transport; exact _
  | |- respects _ (when _ _) => apply respects_when; [exact _ |]
  | |- respects _ (discovery_loop _ _) =>
      apply respects_discovery_loop; exact _
  | |- respects _ (if ?b then _ else _) => destruct b
  | |- respects _ (match ?x with _ => _ end) => destruct x
  end.

#[global] Instance stays_indexed_preorder : PreOrder stays_indexed.
Proof. split; unfold stays_indexed; [by intros w | intros a b c; eauto]. Qed.

Lemma room_indexed_heaps ph ph' ch ch' r :
  heap_kept producer_kept ph ph' -> heap_kept consumer_kept ch ch' ->
  room_indexed ph ch r -> room_indexed ph' ch' r.
Proof.
  intros Hp Hc (Ht & Hpr & Hco). split; [done|]. split.
  - intros id p Hg. destruct (Hpr id p Hg) as (pobj & Hl & Hid).
    destruct (Hp p pobj Hl) as (pobj' & Hl' & Hk & _).
    exists pobj'. split; [done | congruence].
  - intros id c Hg. destruct (Hco id c Hg) as (cobj & Hl & Hid).
    destruct (Hc c cobj Hl) as (cobj' & Hl' & Hk & _).
    exists cobj'. split; [done | congruence].
Qed.

Lemma indexed_heaps f :
  (forall w, receivers (f w) = receivers w) ->
  (forall w, room_heap (f w) = room_heap w) ->
  (forall w, heap_kept producer_kept (producer_heap w) (producer_heap (f w))) ->
  (forall w, heap_kept consumer_kept (consumer_heap w) (consumer_heap (f w))) ->
  guar stays_indexed f.
Proof.
  intros Hr Hh Hp Hc w [Hs Hi]. split.
  - rewrite Hr. exact Hs.
  - rewrite Hh. intros d r Hd.
    eapply room_indexed_heaps; [apply Hp | apply Hc | by eapply Hi].
Qed.

Lemma indexed_receivers rid g :
  (forall r s, ssrc r <> VStr s -> ssrc (g r) <> VStr s) ->
  guar stays_indexed (with_receivers (upd rid g)).
Proof.
  intros Hg w [Hs Hi]. split; [|exact Hi].
  intros rid' cur s. simpl. rewrite upd_lookup.
  destruct (decide (rid = rid')) as [->|]; [|apply Hs].
  destruct (receivers w !! rid') as [r|] eqn:Hr; [|done].
  intros [= <-]. apply Hg. by eapply Hs.
Qed.

Lemma indexed_new_receiver rv :
  (forall s, ssrc rv <> VStr s) ->
  guar stays_indexed (with_receivers (fun l => l ++ [rv])).
Proof.
  intros Hrv w [Hs Hi]. split; [|exact Hi].
  intros rid cur s. simpl. intros Hl.
  apply lookup_app_Some in Hl as [Hl | [_ Hl]]; [by eapply Hs|].
  apply list_lookup_singleton_Some in Hl as [_ <-]. apply Hrv.
Qed.

Lemma indexed_new_room R :
  guar stays_indexed (with_room_heap (fun h => h ++ [Build_Room R [] [] []])).
Proof.
  intros w [Hs Hi]. split; [exact Hs|].
  intros d r. simpl. intros Hl.
  apply lookup_app_Some in Hl as [Hl | [_ Hl]]; [by eapply Hi|].
  apply list_lookup_singleton_Some in Hl as [_ <-].
  by repeat split.
Qed.

Lemma indexed_room_update room g w :
  indexed w ->
  (forall r, room_indexed (producer_heap w) (consumer_heap w) r ->
             room_indexed (producer_heap w) (consumer_heap w) (g r)) ->
  indexed (with_room_heap (upd room g) w).
Proof.
  intros [Hs Hi] Hg. split; [exact Hs|].
  intros d r. simpl. rewrite upd_lookup.
  destruct (decide (room = d)) as [->|]; [|apply Hi].
  destruct (room_heap w !! d) as [r0|] eqn:Hr; [|done].
  intros [= <-]. apply Hg. by eapply Hi.
Qed.

Lemma get_set_cases {V} (k k' : JsVal) (v v' : V) (m : JsMap.t V) :
  JsMap.get k' (JsMap.set k v m) = Some v' ->
  (k' = k /\ v' = v) \/ (k' <> k /\ JsMap.get k' m = Some v').
Proof.
  destruct (decide (k = k')) as [->|Hne].
  - rewrite JsMap_get_set_eq. intros [= <-]. by left.
  - rewrite JsMap_get_set_ne by done. intros H. right. split; [congruence|done].
Qed.

Lemma indexed_transport room t :
  guar stays_indexed
    (with_room_heap (upd room (with_transports (JsMap.set (VStr (t_id t)) t)))).
Proof.
  intros w Hw. apply indexed_room_update; [done|].
  intros r (Ht & Hp & Hc). split; [|by split].
  intros id t' Hg. simpl in Hg.
  apply get_set_cases in Hg as [[[= ->] ->] | [_ Hg]]; [done | by eapply Ht].
Qed.

Lemma indexed_producer_by_id room p pobj w :
  producer_heap w !! p = Some pobj ->
  stays_indexed w
    (with_room_heap
       (upd room (with_producers (JsMap.set (VStr (p_id pobj)) p))) w).
Proof.
  intros Hpo Hw. apply indexed_room_update; [done|].
  intros r (Ht & Hp & Hc). split; [done|]. split; [|done].
  intros id p' Hg. simpl in Hg.
  apply get_set_cases in Hg as [[[= ->] ->] | [_ Hg]]; [eauto | by eapply Hp].
Qed.

Lemma indexed_producer_by_ssrc room rid cur p w :
  receivers w !! rid = Some cur ->
  stays_indexed w
    (with_room_heap (upd room (with_producers (JsMap.set (ssrc cur) p))) w).
Proof.
  intros Hcur Hw. apply indexed_room_update; [done|].
  intros r (Ht & Hp & Hc). split; [done|]. split; [|done].
  intros id p' Hg. simpl in Hg.
  apply get_set_cases in Hg as [[Hk _] | [_ Hg]]; [|by eapply Hp].
  destruct Hw as [Hs _]. by apply (Hs rid cur id) in Hcur.
Qed.

Lemma indexed_consumer_by_id room c cobj w :
  consumer_heap w !! c = Some cobj ->
  stays_indexed w
    (with_room_heap
       (upd room (with_consumers (JsMap.set (VStr (c_id cobj)) c))) w).
Proof.
  intros Hco Hw. apply indexed_room_update; [done|].
  intros r (Ht & Hp & Hc). split; [done|]. split; [done|].
  intros id c' Hg. simpl in Hg.
  apply get_set_cases in Hg as [[[= ->] ->] | [_ Hg]]; [eauto | by eapply Hc].
Qed.

Ltac solve_indexed :=
  first
    [ reflexivity
    | apply indexed_heaps;
        [ reflexivity | reflexivity
        | intros; simpl;
          first [ apply heap_kept_same; exact _
                | apply heap_kept_app; exact _
                | apply heap_kept_upd; [exact _ | by repeat split] ]
        | intros; simpl;
          first [ apply heap_kept_same; exact _
                | apply heap_kept_app; exact _
                | apply heap_kept_upd; [exact _ | by repeat split] ] ]
    | apply indexed_receivers; intros; simpl; first [done | discriminate]
    | apply indexed_new_receiver; intros; simpl; discriminate
    | apply indexed_new_room
    | apply indexed_transport
    | by eapply indexed_producer_by_id
    | by eapply indexed_producer_by_ssrc
    | by eapply indexed_consumer_by_id ].

(** X16: lookup by id.  Starting from start-up, in every reachable state
    an entry of a room's transport, producer or consumer map that is
    keyed by a string holds the object whose id is that string: what
    [get(id)] returns is the transport, producer or consumer with that
    id.  (The SSRC keys of the producer map are numbers and never
    collide with an id.) *)
Theorem lookup_by_id (evs : list Event) : indexed (world (run evs boot)).
Proof.
  assert (Hs : stays_indexed (world (run [] boot))
                             (world (run evs (run [] boot)))).
  { apply (reachable_respects stays_indexed).
    - intros sid data. open_handlers. walk_reads; solve_indexed.
    - intros rid c p. open_handlers. walk_reads; solve_indexed.
    - intros rid c p. open_handlers. walk_reads; solve_indexed.
    - solve_indexed.
    - open_handlers. walk_reads; solve_indexed. }
  apply Hs. split.
  - intros rid cur s Hl. simpl in Hl. by rewrite lookup_nil in Hl.
  - intros d r Hl. simpl in Hl. by rewrite lookup_nil in Hl.
Qed.

(** ** Starting a receiver, continued *)

(** X17: the engine calls of [createRtpReceiver].  For a registered room
    it asks for a plain transport on the room's router; for a missing
    one it first has the room created and then uses the router of the
    room it created.  Only when the transport is there does it set up
    the receiver (for that room, with the transport's two local ports)
    and ask for the binds.  A rejected call ends it there: no receiver
    is set up and no bind is asked for, while a room created on the way
    stays registered. *)
Theorem receiver_start_steps (roomId : JsVal) (options : Options) (w : World) :
  let p := default RTP_PORT (o_listenPort options) in
  (forall d r,
     JsMap.get roomId (rooms w) = Some d ->
     room_heap w !! d = Some r ->
     exists k1,
       createRtpReceiver roomId options w
         = Susp (ReqCreatePlainTransport (r_id (router r))) w k1 /\
       (forall e w1, k1 (RspError e) w1 = Fail e w1)) /\
  (forall wk,
     JsMap.get roomId (rooms w) = None ->
     workers w !! 0%nat = Some wk ->
     exists k,
       createRtpReceiver roomId options w
         = Susp (ReqCreateRouter wk mediaCodecs) w k /\
       (forall e w', k (RspError e) w' = Fail e w') /\
       forall R w', exists k1,
         k (RspRouter R) w'
           = Susp (ReqCreatePlainTransport (r_id R))
               (room_created roomId R w') k1 /\
         (forall e w1, k1 (RspError e) w1 = Fail e w1) /\
         forall tr w1, exists k2,
           k1 (RspPlainTransport tr) w1
             = Susp (ReqBind p (p + 1))
                 (with_receivers
                    (fun l => l ++
                       [new_receiver (length (room_heap w')) tr options])
                    w1) k2).
Proof.
  cbv zeta. split.
  - intros d r Hd Hr. unfold createRtpReceiver, bind. simpl.
    rewrite (getOrCreateRoom_present _ d) by done. simpl.
    unfold room_at. rewrite (deref_Some _ _ r) by done. simpl.
    eexists. split; [reflexivity|]. intros; reflexivity.
  - intros wk Hnone Hwk.
    destruct (getOrCreateRoom_rejected roomId wk w Hnone Hwk)
      as (k & Hk & Hok & Herr).
    unfold createRtpReceiver, bind. simpl. rewrite Hk. simpl.
    eexists. split; [reflexivity|]. split.
    + intros e w'. simpl. by rewrite Herr.
    + intros R w'. simpl. rewrite Hok. simpl.
      unfold room_at, deref. simpl. rewrite list_lookup_middle by done. simpl.
      eexists. split; [reflexivity|]. split; [intros; reflexivity|].
      intros tr w1. simpl. eexists. reflexivity.
Qed.

Lemma receiver_start_steps_witness :
  exists k, createRtpReceiver (VStr "lobby") no_options studio
            = Susp (ReqCreateRouter 1 mediaCodecs) studio k.
Proof.
  destruct (receiver_start_steps (VStr "lobby") no_options studio) as [_ H].
  destruct (H 1%nat eq_refl eq_refl) as (k & Hk & _).
  by exists k.
Defined.

(** ** Forwarding, continued *)

(** X18: what holds of forwarding.  An RTCP datagram is forwarded to
    the local RTCP port whatever the state of the receiver.  In no
    reachable state has an RTP datagram been forwarded for a receiver
    whose [producer] is still unset, and [producer], once set, stays
    set.  Once it is set, a datagram that does not start a detection
    (every datagram shorter than 12 bytes, and every datagram when the
    stored SSRC is not zero) is forwarded unchanged at once; one that
    does start a detection is forwarded unchanged as the handler's last
    action provided the engine answers its requests successfully. *)
Theorem forwarding_rules (rid : nat) (c : Receiver) (packet : list byte) :
  rtpPort c <> 0 ->
  rtcpPort c <> 0 ->
  let rtp := UdpSend (rtpForward rid) packet (rtpPort c) "127.0.0.1" in
  let rtcp := UdpSend (rtcpForward rid) packet (rtcpPort c) "127.0.0.1" in
  (forall w, on_rtcp rid c packet w
             = Done tt (with_outbox (fun o => o ++ [rtcp]) w)) /\
  (forall evs cur,
     receivers (world (run evs boot)) !! rid = Some cur ->
     producer cur = None ->
     ~ sent_rtp rid (outbox (world (run evs boot)))) /\
  (forall evs evs',
     has_producer rid (world (run evs boot)) ->
     has_producer rid (world (run evs' (run evs boot)))) /\
  (forall w cur p,
     receivers w !! rid = Some cur ->
     producer cur = Some p ->
     (length packet < 12)%nat \/ truthy (ssrc cur) = true ->
     on_rtp rid c packet w
       = Done tt (with_outbox (fun o => o ++ [rtp])
                    (with_receivers (upd rid incr_packetCount) w))) /\
  (forall w, has_producer rid w ->
             ends_forwarding rid rtp (on_rtp rid c packet w)).
Proof.
  intros Hrtp Hrtcp rtp rtcp. repeat split.
  - intros w. unfold on_rtcp. apply Z.eqb_neq in Hrtcp. by rewrite Hrtcp.
  - intros evs cur Hcur Hnone Hsent.
    destruct (reachable_forwards_after_producer evs rid Hsent)
      as (cur' & p & Hcur' & Hp).
    congruence.
  - intros evs evs'.
    assert (Hs : steady (world (run evs boot)) (world (run evs' (run evs boot)))).
    { apply (reachable_respects steady);
        auto using on_message_steady, on_rtp_steady, on_rtcp_steady, main_steady.
      by apply steady_frame. }
    apply Hs.
  - intros w cur p. by apply on_rtp_detected.
  - intros w. by apply on_rtp_ends_forwarding.
Qed.

Lemma forwarding_rules_witness :
  on_rtcp 0 (new_receiver 0 plain_T no_options) header_ssrc0 empty_world
    = Done tt (with_outbox
                 (fun o => o ++ [UdpSend (rtcpForward 0) header_ssrc0 40001
                                   "127.0.0.1"])
                 empty_world) /\
  on_rtp 0 (new_receiver 0 plain_T no_options) header_ssrc0 studio_streaming
    = Done tt (with_outbox
                 (fun o => o ++ [UdpSend (rtpForward 0) header_ssrc0 40000
                                   "127.0.0.1"])
                 (with_receivers (upd 0 incr_packetCount) studio_streaming)).
Proof.
  destruct (forwarding_rules 0 (new_receiver 0 plain_T no_options)
              header_ssrc0) as (H1 & _ & _ & H4 & _);
    [discriminate | discriminate |].
  split; [apply H1|].
  apply (H4 studio_streaming receiver_live 0%nat);
    [reflexivity | reflexivity | by right].
Defined.
